(** * libgreat comms classes: registry and command dispatch

    A shallow embedding of [firmware/drivers/comms/comms_class.c] and the
    properties of its registry (a linked list of class objects threaded
    through their [next] fields), of the verb-number auto-assignment done at
    registration, and of the dispatcher [comms_backend_submit_command].

    Objects of type [struct comms_class] live in a store indexed by their
    address; a pointer is an [option] of an address ([None] is [NULL]).
    Every C function becomes a function into [outcome]: it returns a value,
    or it faults (a dereference of [NULL], of an address that holds no
    object, a read past the end of a verb array, a signed overflow), or the
    walk along the linked list exhausts its fuel. *)

From Stdlib Require Import ZArith List Bool Lia.
From stdpp Require Import gmap strings list fin_maps.

(** ** Results of running C code *)

Inductive outcome (A : Type) : Type :=
| Ret (a : A)
| Fault
| OutOfFuel.
Arguments Ret {A} a.
Arguments Fault {A}.
Arguments OutOfFuel {A}.

#[global] Instance outcome_ret : MRet outcome := fun A a => Ret a.
#[global] Instance outcome_bind : MBind outcome := fun A B k m =>
  match m with
  | Ret a => k a
  | Fault => Fault
  | OutOfFuel => OutOfFuel
  end.

(** ** Data model *)

(** Address of a [struct comms_class]. *)
Definition addr := positive.
(** Address of a handler function (a [command_handler_function]). *)
Definition fnptr := positive.
(** [const char *]: [NULL] or a string. *)
Definition cstr := option string.

Definition INT_MAX : Z := 2147483647.
(** Conversion of an [int] to [uint32_t]. *)
Definition to_uint32 (z : Z) : Z := z mod 2 ^ 32.

(** [struct comms_verb]: one entry of a verb array.  The array ends at the
    first entry whose [handler] is [NULL].  The header that declares the
    two structs is not among the sources: their fields are the ones this
    file reads and writes.  Verb and class numbers are [uint32_t] (they are
    compared with the [uint32_t] arguments and printed with [PRIu32]), held
    as [Z]. *)
Record comms_verb := {
  verb_number : Z;
  verb_name : cstr;
  handler : option fnptr
}.

(** [struct comms_class].  [command_verbs] points to the first entry of the
    verb array; the list is what memory holds from there on, the terminator
    and anything behind it included. *)
Record comms_class := {
  class_number : Z;
  name : cstr;
  command_verbs : option (list comms_verb);
  command_handler : option fnptr;
  next : option addr
}.

Definition set_verb_number (v : comms_verb) (n : Z) : comms_verb :=
  {| verb_number := n; verb_name := verb_name v; handler := handler v |}.

Definition set_command_verbs (c : comms_class) (verbs : list comms_verb) : comms_class :=
  {| class_number := class_number c; name := name c;
     command_verbs := Some verbs;
     command_handler := command_handler c; next := next c |}.

Definition set_next (c : comms_class) (p : option addr) : comms_class :=
  {| class_number := class_number c; name := name c;
     command_verbs := command_verbs c;
     command_handler := command_handler c; next := p |}.

(** The class objects in memory and the global [class_head]. *)
Record registry := {
  classes : gmap addr comms_class;
  class_head : option addr
}.

(** The state at boot: [struct comms_class *class_head = NULL]. *)
Definition boot (objects : gmap addr comms_class) : registry :=
  {| classes := objects; class_head := None |}.

(** [struct comm_backend_driver]: only its name is read here. *)
Record comm_backend_driver := { backend_name : cstr }.

(** What the code logs and which handlers it calls, in order. *)
Inductive event :=
| EvNullClass                                   (* pr_error, line 69 *)
| EvUnknownClass (backend : cstr) (class_no : Z)   (* pr_warning, line 140 *)
| EvNoHandlers (backend : cstr) (class_name : cstr)  (* pr_warning, line 148 *)
| EvUnhandledVerb (backend : cstr) (class_name : cstr) (verb_no : Z) (* line 174 *)
| EvVerbHandler (index : nat) (h : fnptr)       (* verb->handler(trans), line 160 *)
| EvClassHandler (h : fnptr).                   (* command_handler(trans), line 169 *)

Definition is_call (e : event) : bool :=
  match e with
  | EvVerbHandler _ _ | EvClassHandler _ => true
  | _ => false
  end.

(** Reading through a pointer. *)
Definition deref {A} (p : option A) : outcome A :=
  match p with
  | Some a => Ret a
  | None => Fault
  end.

Definition is_null {A} (p : option A) : bool :=
  match p with
  | Some _ => false
  | None => true
  end.

(** ** Verb-number auto-assignment *)

(** The loop of [comms_class_requires_verb_assignment], from [verb] on. *)
Fixpoint requires_scan (verbs : list comms_verb) : outcome bool :=
  match verbs with
  | [] => Fault
  | verb :: rest =>
      match handler verb with
      | None => Ret true
      | Some _ =>
          if (verb_number verb =? 0)%Z then requires_scan rest else Ret false
      end
  end.

Definition comms_class_requires_verb_assignment
    (heap : gmap addr comms_class) (cls : addr) : outcome bool :=
  c ← deref (heap !! cls);
  verbs ← deref (command_verbs c);
  requires_scan verbs.

(** The loop of [comms_auto_assign_verb_numbers]; [++next_verb_number]
    overflows an [int] at [INT_MAX]. *)
Fixpoint assign_scan (verbs : list comms_verb) (next_verb_number : Z)
    : outcome (list comms_verb) :=
  match verbs with
  | [] => Fault
  | verb :: rest =>
      match handler verb with
      | None => Ret verbs
      | Some _ =>
          if (INT_MAX <=? next_verb_number)%Z then Fault
          else
            rest' ← assign_scan rest (next_verb_number + 1)%Z;
            Ret (set_verb_number verb (to_uint32 next_verb_number) :: rest')
      end
  end.

Definition comms_auto_assign_verb_numbers
    (heap : gmap addr comms_class) (cls : addr)
    : outcome (gmap addr comms_class) :=
  c ← deref (heap !! cls);
  verbs ← deref (command_verbs c);
  verbs' ← assign_scan verbs 0;
  Ret (<[cls := set_command_verbs c verbs']> heap).

(** ** Registration *)

Definition comms_register_class (cls : option addr) (r : registry)
    : outcome (registry * list event) :=
  match cls with
  | None => Ret (r, [EvNullClass])
  | Some a =>
      needs ← comms_class_requires_verb_assignment (classes r) a;
      heap ← (if needs : bool
              then comms_auto_assign_verb_numbers (classes r) a
              else Ret (classes r));
      c ← deref (heap !! a);
      Ret ({| classes := <[a := set_next c (class_head r)]> heap;
              class_head := Some a |}, [])
  end.

(** Registering several classes in turn, as the start-up code does. *)
Fixpoint register_all (cs : list addr) (r : registry) : outcome registry :=
  match cs with
  | [] => Ret r
  | a :: rest =>
      '(r', _) ← comms_register_class (Some a) r;
      register_all rest r'
  end.

(** ** Lookup *)

(** The loop of [comms_get_class_by_number], from [cls] on.  One unit of
    fuel is spent for each node visited. *)
Fixpoint class_scan (fuel : nat) (heap : gmap addr comms_class)
    (cls : option addr) (class_no : Z) : outcome (option addr) :=
  match cls with
  | None => Ret None
  | Some a =>
      match fuel with
      | O => OutOfFuel
      | S fuel' =>
          c ← deref (heap !! a);
          if (class_number c =? class_no)%Z then Ret (Some a)
          else class_scan fuel' heap (next c) class_no
      end
  end.

Definition comms_get_class_by_number (fuel : nat) (r : registry) (class_no : Z)
    : outcome (option addr) :=
  class_scan fuel (classes r) (class_head r) class_no.

Definition comms_get_class_name (fuel : nat) (r : registry) (class_no : Z)
    (default_string : cstr) : outcome cstr :=
  cls ← comms_get_class_by_number fuel r class_no;
  match cls with
  | None => Ret default_string
  | Some a =>
      c ← deref (classes r !! a);
      match name c with
      | None => Ret default_string
      | Some s => Ret (Some s)
      end
  end.

(** ** Introspection *)

(** The loop of [comms_get_object_for_verb]; the entry found is returned
    with its index in the array. *)
Fixpoint verb_scan (verbs : list comms_verb) (index : nat) (verb_no : Z)
    : outcome (option (nat * comms_verb)) :=
  match verbs with
  | [] => Fault
  | verb :: rest =>
      match handler verb with
      | None => Ret None
      | Some _ =>
          if (verb_number verb =? verb_no)%Z then Ret (Some (index, verb))
          else verb_scan rest (S index) verb_no
      end
  end.

Definition comms_get_object_for_verb (fuel : nat) (r : registry)
    (class_no verb_no : Z) : outcome (option (nat * comms_verb)) :=
  handling_class ← comms_get_class_by_number fuel r class_no;
  match handling_class with
  | None => Ret None
  | Some a =>
      c ← deref (classes r !! a);
      match command_verbs c with
      | None => Ret None
      | Some verbs => verb_scan verbs 0 verb_no
      end
  end.

Definition comms_get_handler_name (fuel : nat) (r : registry)
    (class_no verb_no : Z) (class_handler_string default_string : cstr)
    : outcome cstr :=
  verb ← comms_get_object_for_verb fuel r class_no verb_no;
  handling_class ← comms_get_class_by_number fuel r class_no;
  match verb with
  | Some (_, v) =>
      match verb_name v with
      | Some s => Ret (Some s)
      | None => Ret default_string
      end
  | None =>
      a ← deref handling_class;
      c ← deref (classes r !! a);
      if is_null (command_handler c) then Ret default_string
      else Ret class_handler_string
  end.

(** ** Dispatch *)

Section Dispatch.

(** The header that declares [struct command_transaction] is not among the
    sources: the transaction is its two routing fields, which this file
    reads, and the payload and response area, left abstract. *)
Variable trans_area : Type.

Record command_transaction := {
  trans_class_number : Z;
  trans_verb : Z;
  trans_data : trans_area
}.

(** [comms_transaction_okay], declared in the same header. *)
Variable comms_transaction_okay : command_transaction -> bool.

(** The two codes of [errno.h] the dispatcher returns. *)
Variables EINVAL EBADMSG : Z.

(** The code behind each handler address: a handler returns an [int],
    works on the transaction it is given and may change the registry. *)
Variable handler_code :
  fnptr -> command_transaction -> registry -> Z * command_transaction * registry.

(** The state of [comms_backend_submit_command] after its loop and after
    the delegation to the class handler. *)
Record submission := {
  found_handler : bool;
  rc : Z;
  trans_after : command_transaction;
  registry_after : registry;
  trace : list event
}.

(** The loop over the verb array, lines 157 to 163. *)
Fixpoint submit_scan (verbs : list comms_verb) (index : nat)
    (trans : command_transaction) (r : registry) : outcome submission :=
  match verbs with
  | [] => Fault
  | verb :: rest =>
      match handler verb with
      | None =>
          Ret {| found_handler := false; rc := 0; trans_after := trans;
                 registry_after := r; trace := [] |}
      | Some h =>
          if (verb_number verb =? trans_verb trans)%Z then
            let '(code, trans', r') := handler_code h trans r in
            Ret {| found_handler := true; rc := code; trans_after := trans';
                   registry_after := r'; trace := [EvVerbHandler index h] |}
          else submit_scan rest (S index) trans r
      end
  end.

(** Lines 167 to 170. *)
Definition delegate (command_handler : option fnptr) (s : submission)
    : submission :=
  match found_handler s, command_handler with
  | false, Some h =>
      let '(code, trans', r') :=
        handler_code h (trans_after s) (registry_after s) in
      {| found_handler := true; rc := code; trans_after := trans';
         registry_after := r'; trace := trace s ++ [EvClassHandler h] |}
  | _, _ => s
  end.

(** Lines 181 to 185. *)
Definition checked_status (code : Z) (trans : command_transaction) : Z :=
  if (code =? 0)%Z && negb (comms_transaction_okay trans) then EBADMSG
  else code.

(** What [comms_backend_submit_command] hands back: its return value, the
    transaction and the registry as the handler left them, and the events
    in the order they happened. *)
Definition comms_backend_submit_command (fuel : nat)
    (backend : comm_backend_driver) (trans : command_transaction)
    (r : registry)
    : outcome (Z * command_transaction * registry * list event) :=
  handling_class ← comms_get_class_by_number fuel r (trans_class_number trans);
  match handling_class with
  | None =>
      Ret (EINVAL, trans, r,
           [EvUnknownClass (backend_name backend) (trans_class_number trans)])
  | Some a =>
      c ← deref (classes r !! a);
      if is_null (command_verbs c) && is_null (command_handler c) then
        Ret (EINVAL, trans, r, [EvNoHandlers (backend_name backend) (name c)])
      else
        verbs ← deref (command_verbs c);
        s ← submit_scan verbs 0 trans r;
        let s := delegate (command_handler c) s in
        if negb (found_handler s) then
          Ret (EINVAL, trans_after s, registry_after s,
               trace s ++ [EvUnhandledVerb (backend_name backend) (name c)
                             (trans_verb trans)])
        else
          Ret (checked_status (rc s) (trans_after s),
               trans_after s, registry_after s, trace s)
  end.

End Dispatch.

Arguments trans_class_number {trans_area} _.
Arguments trans_verb {trans_area} _.
Arguments trans_data {trans_area} _.
Arguments found_handler {trans_area} _.
Arguments rc {trans_area} _.
Arguments trans_after {trans_area} _.
Arguments registry_after {trans_area} _.
Arguments trace {trans_area} _.

(** ** Vocabulary of the statements *)

(** An entry that carries a handler; the first entry that does not ends the
    array. *)
Definition has_handler (v : comms_verb) : bool := negb (is_null (handler v)).

(** The verbs of a class: the entries in front of the terminator. *)
Fixpoint active_verbs (verbs : list comms_verb) : list comms_verb :=
  match verbs with
  | [] => []
  | v :: rest => if has_handler v then v :: active_verbs rest else []
  end.

(** The array holds a terminator. *)
Definition terminated (verbs : list comms_verb) : Prop :=
  Exists (fun v => handler v = None) verbs.

(** [chain heap p l]: following [next] from the pointer [p] visits exactly
    the addresses [l], in this order, and ends at [NULL]. *)
Inductive chain (heap : gmap addr comms_class) : option addr -> list addr -> Prop :=
| chain_null : chain heap None []
| chain_node a c l :
    heap !! a = Some c -> chain heap (next c) l -> chain heap (Some a) (a :: l).

(** The class object at [a] bears the number [n]. *)
Definition bears (heap : gmap addr comms_class) (n : Z) (a : addr) : Prop :=
  exists c, heap !! a = Some c /\ class_number c = n.

(** A class object that [comms_register_class] accepts: it exists, has a
    verb array with a terminator, and fewer verbs than an [int] counts. *)
Definition registrable (heap : gmap addr comms_class) (a : addr) : Prop :=
  exists c verbs,
    heap !! a = Some c /\ command_verbs c = Some verbs /\
    terminated verbs /\ (Z.of_nat (length (active_verbs verbs)) <= INT_MAX)%Z.

(** No entry of [pre] ends the array or carries the number [verb_no]: the
    scans of the dispatcher walk past all of them. *)
Definition passed_over (verb_no : Z) (pre : list comms_verb) : Prop :=
  Forall (fun v => has_handler v = true /\ verb_number v <> verb_no) pre.

(** [selects c verb_no ev h]: for the verb number [verb_no], the class [c]
    gives the handler [h], called at the place that [ev] records: the first
    entry of the verb array that carries the number, or else the handler of
    the class. *)
Inductive selects (c : comms_class) (verb_no : Z) : event -> fnptr -> Prop :=
| selects_verb pre v rest h :
    command_verbs c = Some (pre ++ v :: rest) ->
    passed_over verb_no pre ->
    handler v = Some h ->
    verb_number v = verb_no ->
    selects c verb_no (EvVerbHandler (length pre) h) h
| selects_class pre term post h :
    command_verbs c = Some (pre ++ term :: post) ->
    passed_over verb_no pre ->
    handler term = None ->
    command_handler c = Some h ->
    selects c verb_no (EvClassHandler h) h.

(** Two states of a verb array that differ in verb numbers at most. *)
Definition same_entries (verbs verbs' : list comms_verb) : Prop :=
  map handler verbs' = map handler verbs /\
  map verb_name verbs' = map verb_name verbs.

(** Two states of a class object that differ in verb numbers and in the
    link at most. *)
Definition same_class (c c' : comms_class) : Prop :=
  class_number c' = class_number c /\
  name c' = name c /\
  command_handler c' = command_handler c /\
  match command_verbs c, command_verbs c' with
  | Some verbs, Some verbs' => same_entries verbs verbs'
  | None, None => True
  | _, _ => False
  end.

(** [listed r l]: the list of the registry holds the objects [l], in this
    order, and each of them has a verb array with a terminator. *)
Definition listed (r : registry) (l : list addr) : Prop :=
  chain (classes r) (class_head r) l /\
  Forall (registrable (classes r)) l.

(** ** A small device

    Four class objects and the code of their handlers, on which the
    statements below are run. *)
Module Device.

(** The response area is the list of numbers the handlers wrote to it; a
    negative number marks the response as bad. *)
Definition area := list Z.

Definition transaction (class_no verb_no : Z) : command_transaction area :=
  {| trans_class_number := class_no; trans_verb := verb_no; trans_data := [] |}.

Definition respond (z : Z) (t : command_transaction area)
    : command_transaction area :=
  {| trans_class_number := trans_class_number t;
     trans_verb := trans_verb t;
     trans_data := trans_data t ++ [z] |}.

Definition transaction_okay (t : command_transaction area) : bool :=
  forallb (fun z => (0 <=? z)%Z) (trans_data t).

Definition EINVAL : Z := 22.
Definition EBADMSG : Z := 74.

(** The handler at 30 fails with a code of its own, the one at 31 returns
    0 but marks the response as bad, every other one writes its own
    address to the response and returns 0. *)
Definition code (h : fnptr) (t : command_transaction area) (r : registry)
    : Z * command_transaction area * registry :=
  match h with
  | 30%positive => (5%Z, t, r)
  | 31%positive => (0%Z, respond (-1) t, r)
  | _ => (0%Z, respond (Z.pos h) t, r)
  end.

Definition entry (n : Z) (label : cstr) (h : option fnptr) : comms_verb :=
  {| verb_number := n; verb_name := label; handler := h |}.

Definition terminator : comms_verb := entry 0 None None.

(** Three verbs, none numbered. *)
Definition gpio : comms_class :=
  {| class_number := 5; name := Some "gpio"%string;
     command_verbs :=
       Some [entry 0 (Some "A"%string) (Some 10%positive);
             entry 0 (Some "B"%string) (Some 11%positive);
             entry 0 None (Some 12%positive);
             terminator];
     command_handler := None; next := None |}.

(** One numbered verb and a handler for the rest. *)
Definition spi : comms_class :=
  {| class_number := 7; name := Some "spi"%string;
     command_verbs := Some [entry 3 (Some "X"%string) (Some 20%positive); terminator];
     command_handler := Some 21%positive; next := None |}.

(** Bears the number of [spi]; numbers one verb and leaves one at 0. *)
Definition spi2 : comms_class :=
  {| class_number := 7; name := None;
     command_verbs :=
       Some [entry 0 None (Some 31%positive);
             entry 4 None (Some 30%positive);
             terminator];
     command_handler := None; next := None |}.

(** No verb array, only a handler. *)
Definition bare : comms_class :=
  {| class_number := 9; name := Some "bare"%string;
     command_verbs := None;
     command_handler := Some 21%positive; next := None |}.

Definition objects : gmap addr comms_class :=
  <[1%positive := gpio]> (<[2%positive := spi]> (<[3%positive := spi2]>
    (<[4%positive := bare]> ∅))).

(** [gpio], [spi] and [spi2] registered in this order. *)
Definition registered : registry :=
  match register_all [1%positive; 2%positive; 3%positive] (boot objects) with
  | Ret r => r
  | _ => boot objects
  end.

(** [gpio] and [spi] registered, [spi2] not yet. *)
Definition early : registry :=
  match register_all [1%positive; 2%positive] (boot objects) with
  | Ret r => r
  | _ => boot objects
  end.

(** The verbs of [gpio] once it is registered. *)
Definition gpio_numbered : list comms_verb :=
  [entry 0 (Some "A"%string) (Some 10%positive);
   entry 1 (Some "B"%string) (Some 11%positive);
   entry 2 None (Some 12%positive)].

(** A list that holds [bare], as if its registration had gone through. *)
Definition with_bare : registry :=
  {| classes := objects; class_head := Some 4%positive |}.

Definition usb : comm_backend_driver := {| backend_name := Some "usb"%string |}.

Definition submit :=
  comms_backend_submit_command area transaction_okay EINVAL EBADMSG code.

End Device.

(** ** The scans over a verb array *)

Lemma active_verbs_app (pre : list comms_verb) term post :
  Forall (fun v => has_handler v = true) pre -> handler term = None ->
  active_verbs (pre ++ term :: post) = pre.
Proof.
  induction 1 as [|v pre Hv _ IH]; intros Hterm; simpl.
  - unfold has_handler. now rewrite Hterm.
  - rewrite Hv. f_equal. now apply IH.
Qed.

Lemma terminated_split (verbs : list comms_verb) :
  terminated verbs ->
  exists term post,
    verbs = active_verbs verbs ++ term :: post /\ handler term = None.
Proof.
  unfold terminated. induction 1 as [v rest Hv | v rest _ IH].
  - exists v, rest. simpl. unfold has_handler. now rewrite Hv.
  - simpl. destruct (has_handler v) eqn:Hh.
    + destruct IH as (term & post & Heq & Hterm).
      exists term, post. split; [|assumption]. simpl. now f_equal.
    + exists v, rest. split; [reflexivity|].
      unfold has_handler in Hh. now destruct (handler v).
Qed.

Lemma active_verbs_have_handler (verbs : list comms_verb) :
  Forall (fun v => has_handler v = true) (active_verbs verbs).
Proof.
  induction verbs as [|v rest IH]; simpl; [constructor|].
  destruct (has_handler v) eqn:Hh; constructor; assumption.
Qed.

Lemma has_handler_some (v : comms_verb) :
  has_handler v = true -> exists h, handler v = Some h.
Proof.
  unfold has_handler. destruct (handler v) as [h|]; [eauto | discriminate].
Qed.

(** All verbs are numbered zero: the first scan says yes. *)
Lemma requires_scan_all_zero (pre : list comms_verb) term post :
  Forall (fun v => has_handler v = true /\ verb_number v = 0%Z) pre ->
  handler term = None ->
  requires_scan (pre ++ term :: post) = Ret true.
Proof.
  induction 1 as [|v pre [Hh Hz] _ IH]; intros Hterm; simpl.
  - now rewrite Hterm.
  - apply has_handler_some in Hh as [h ->]. rewrite Hz. simpl. now apply IH.
Qed.

(** Some verb is numbered otherwise: the first scan says no, and it stops
    at that verb. *)
Lemma requires_scan_explicit (verbs : list comms_verb) :
  Exists (fun v => verb_number v <> 0%Z) (active_verbs verbs) ->
  requires_scan verbs = Ret false.
Proof.
  induction verbs as [|v rest IH]; simpl; intros Hex.
  - inversion Hex.
  - unfold has_handler in Hex. destruct (handler v) as [h|]; simpl in Hex.
    + destruct (Z.eqb_spec (verb_number v) 0) as [Hz|Hnz]; [|reflexivity].
      apply IH. inversion Hex; subst; [contradiction | assumption].
    + inversion Hex.
Qed.

(** The second scan numbers the verbs upwards from [n] and leaves the
    terminator and what follows it alone. *)
Lemma assign_scan_numbers (pre : list comms_verb) term post (n : Z) :
  Forall (fun v => has_handler v = true) pre ->
  handler term = None ->
  (0 <= n)%Z -> (n + Z.of_nat (length pre) <= INT_MAX)%Z ->
  exists pre',
    assign_scan (pre ++ term :: post) n = Ret (pre' ++ term :: post) /\
    map verb_number pre' = map (fun i => (n + Z.of_nat i)%Z) (seq 0 (length pre)) /\
    map handler pre' = map handler pre /\
    map verb_name pre' = map verb_name pre.
Proof.
  intros Hpre Hterm. revert n.
  induction Hpre as [|v pre Hv _ IH]; intros n Hn Hmax.
  - exists []. simpl. rewrite Hterm. repeat split; reflexivity.
  - simpl in Hmax. apply has_handler_some in Hv as [h Hh].
    destruct (IH (n + 1)%Z) as (pre' & Hscan & Hnum & Hhdl & Hnam); [lia | lia |].
    exists (set_verb_number v n :: pre'). cbn [assign_scan app].
    rewrite Hh. destruct (Z.leb_spec INT_MAX n) as [Hle|_]; [lia|].
    rewrite Hscan. cbn.
    assert (Hwrap : to_uint32 n = n).
    { unfold to_uint32. apply Z.mod_small. unfold INT_MAX in Hmax. lia. }
    rewrite Hwrap. repeat split.
    + cbn [length seq map]. rewrite Hnum, <- seq_shift, map_map. f_equal.
      * f_equal. lia.
      * apply map_ext. intros i. lia.
    + cbn. now rewrite Hhdl.
    + cbn. now rewrite Hnam.
Qed.

(** ** What one registration does to the store *)

Lemma set_command_verbs_same (c : comms_class) (verbs : list comms_verb) :
  command_verbs c = Some verbs -> set_command_verbs c verbs = c.
Proof. destruct c; simpl; intros ->; reflexivity. Qed.

(** Whenever its two scans return, [comms_register_class] writes the verbs
    the second scan produced (or the old ones) and the old list head into
    the object, and makes the object the new head. *)
Lemma register_shape (r : registry) (a : addr) (c : comms_class)
    (verbs verbs' : list comms_verb) (needs : bool) :
  classes r !! a = Some c ->
  command_verbs c = Some verbs ->
  requires_scan verbs = Ret needs ->
  (if needs then assign_scan verbs 0 else Ret verbs) = Ret verbs' ->
  comms_register_class (Some a) r =
    Ret ({| classes :=
              <[a := set_next (set_command_verbs c verbs') (class_head r)]>
                (classes r);
            class_head := Some a |}, []).
Proof.
  intros Hc Hverbs Hreq Hassign.
  unfold comms_register_class, comms_class_requires_verb_assignment,
    comms_auto_assign_verb_numbers.
  rewrite Hc; cbn. rewrite Hverbs; cbn. rewrite Hreq; cbn.
  destruct needs; cbn.
  - rewrite ?Hc; cbn. rewrite ?Hverbs; cbn. rewrite Hassign; cbn.
    rewrite lookup_insert_eq; cbn. now rewrite insert_insert_eq.
  - injection Hassign as <-. rewrite ?Hc; cbn.
    now rewrite (set_command_verbs_same c verbs Hverbs).
Qed.

Lemma all_zero_or_explicit (l : list comms_verb) :
  Forall (fun v => verb_number v = 0%Z) l \/
  Exists (fun v => verb_number v <> 0%Z) l.
Proof.
  induction l as [|v l [IH | IH]].
  - left; constructor.
  - destruct (Z.eq_dec (verb_number v) 0%Z) as [Hz | Hnz].
    + left; now constructor.
    + right; now constructor.
  - right; now constructor 2.
Qed.

(** A registrable class is registered without a fault: it becomes the head,
    points to the old head, keeps its class number, and no other object is
    touched. *)
Lemma register_registrable (r : registry) (a : addr) :
  registrable (classes r) a ->
  exists r' c c',
    comms_register_class (Some a) r = Ret (r', []) /\
    class_head r' = Some a /\
    classes r !! a = Some c /\
    classes r' !! a = Some c' /\
    next c' = class_head r /\
    class_number c' = class_number c /\
    forall b, b <> a -> classes r' !! b = classes r !! b.
Proof.
  intros (c & verbs & Hc & Hverbs & Hterm & Hlen).
  destruct (terminated_split verbs Hterm) as (term & post & Hsplit & Hnull).
  pose proof (active_verbs_have_handler verbs) as Hact.
  assert (Hscans : exists needs verbs',
             requires_scan verbs = Ret needs /\
             (if needs then assign_scan verbs 0 else Ret verbs) = Ret verbs').
  { destruct (all_zero_or_explicit (active_verbs verbs)) as [Hall | Hex].
    - assert (Hzero : Forall (fun v => has_handler v = true /\ verb_number v = 0%Z)
                        (active_verbs verbs)).
      { rewrite Forall_forall in Hact, Hall |- *. intros v Hv. split; auto. }
      destruct (assign_scan_numbers (active_verbs verbs) term post 0 Hact Hnull)
        as (pre' & Hscan & _); [lia | lia |].
      exists true, (pre' ++ term :: post). rewrite Hsplit at 1 2.
      split; [now apply requires_scan_all_zero | exact Hscan].
    - exists false, verbs. split; [now apply requires_scan_explicit | reflexivity]. }
  destruct Hscans as (needs & verbs' & Hreq & Hassign).
  eexists _, c, _. split; [exact (register_shape r a c verbs verbs' needs Hc Hverbs Hreq Hassign)|].
  cbn. rewrite lookup_insert_eq. repeat split; try reflexivity; try assumption.
  intros b Hb. now rewrite lookup_insert_ne.
Qed.

(** ** The linked list *)

(** Writing to an object that is not on the list leaves the list alone. *)
Lemma chain_insert_off (heap : gmap addr comms_class) p (l : list addr) a c :
  chain heap p l -> a ∉ l -> chain (<[a := c]> heap) p l.
Proof.
  induction 1 as [|b cb l Hb _ IH]; intros Hfresh.
  - constructor.
  - apply not_elem_of_cons in Hfresh as [Hne Hfresh].
    econstructor; [|now apply IH].
    rewrite lookup_insert_ne; [exact Hb | congruence].
Qed.

Lemma chain_agree (heap heap' : gmap addr comms_class) p (l : list addr) :
  chain heap p l -> (forall b, b ∈ l -> heap' !! b = heap !! b) ->
  chain heap' p l.
Proof.
  induction 1 as [|b cb l Hb _ IH]; intros Hsame.
  - constructor.
  - econstructor.
    + rewrite Hsame; [exact Hb | left].
    + apply IH. intros x Hx. apply Hsame. now right.
Qed.

(** The scan returns the first object on the list that bears the number. *)
Lemma class_scan_found (heap : gmap addr comms_class) p
    (front : list addr) a (back : list addr) (n : Z) (fuel : nat) :
  chain heap p (front ++ a :: back) ->
  Forall (fun b => ~ bears heap n b) front ->
  bears heap n a ->
  length front < fuel ->
  class_scan fuel heap p n = Ret (Some a).
Proof.
  revert p fuel. induction front as [|b front IH]; intros p fuel Hchain Hfront Ha Hfuel.
  - inversion Hchain as [|a' c l Hc Hrest]; subst.
    destruct fuel as [|fuel]; [simpl in Hfuel; lia|].
    destruct Ha as (c' & Hc' & Hn). simpl. rewrite Hc; cbn.
    assert (c' = c) by congruence; subst c'.
    now rewrite Hn, Z.eqb_refl.
  - inversion Hchain as [|b' c l Hc Hrest]; subst.
    destruct fuel as [|fuel]; [simpl in Hfuel; lia|].
    inversion Hfront as [|? ? Hb Hfront']; subst.
    simpl. rewrite Hc; cbn.
    destruct (Z.eqb_spec (class_number c) n) as [Heq | _].
    + exfalso. apply Hb. now exists c.
    + apply IH; try assumption. simpl in Hfuel. lia.
Qed.

(** The scan returns [NULL] when no object on the list bears the number. *)
Lemma class_scan_absent (heap : gmap addr comms_class) p (l : list addr)
    (n : Z) (fuel : nat) :
  chain heap p l ->
  Forall (fun b => ~ bears heap n b) l ->
  length l <= fuel ->
  class_scan fuel heap p n = Ret None.
Proof.
  intros Hchain. revert fuel.
  induction Hchain as [|a c l Hc _ IH]; intros fuel Hnone Hfuel.
  - now destruct fuel.
  - destruct fuel as [|fuel]; [simpl in Hfuel; lia|].
    inversion Hnone as [|? ? Ha Hnone']; subst.
    simpl. rewrite Hc; cbn.
    destruct (Z.eqb_spec (class_number c) n) as [Heq | _].
    + exfalso. apply Ha. now exists c.
    + apply IH; [assumption | simpl in Hfuel; lia].
Qed.

(** ** Registering a sequence of classes *)

Lemma registrable_agree (heap heap' : gmap addr comms_class) (b : addr) :
  heap' !! b = heap !! b -> registrable heap b -> registrable heap' b.
Proof.
  intros Hsame (c & verbs & Hc & H). exists c, verbs. now rewrite Hsame.
Qed.

(** Distinct registrable classes, none of them registered yet, are all
    registered without a fault; they are put in front of the list, last
    first, and every object keeps its class number. *)
Lemma register_all_chain (cs : list addr) :
  forall (r : registry) (l : list addr),
    chain (classes r) (class_head r) l ->
    NoDup cs ->
    (forall a, a ∈ cs -> a ∉ l) ->
    Forall (registrable (classes r)) cs ->
    exists r',
      register_all cs r = Ret r' /\
      chain (classes r') (class_head r') (rev cs ++ l) /\
      forall b n, bears (classes r') n b <-> bears (classes r) n b.
Proof.
  induction cs as [|a cs IH]; intros r l Hchain Hnodup Hfresh Hreg.
  - exists r. repeat split; auto.
  - apply NoDup_cons in Hnodup as [Ha Hnodup].
    inversion Hreg as [|? ? Hra Hreg']; subst.
    destruct (register_registrable r a Hra)
      as (r1 & c & c1 & Hrun & Hhead & Hc & Hc1 & Hnext & Hnum & Hother).
    assert (Hchain1 : chain (classes r1) (class_head r1) (a :: l)).
    { rewrite Hhead. econstructor; [exact Hc1|]. rewrite Hnext.
      apply (chain_agree (classes r)); [assumption|].
      intros b Hb. apply Hother. intros ->.
      apply (Hfresh a); [left | assumption]. }
    destruct (IH r1 (a :: l) Hchain1 Hnodup) as (r' & Hrun' & Hchain' & Hbears).
    + intros b Hb. apply not_elem_of_cons. split.
      * intros ->. contradiction.
      * apply Hfresh. now right.
    + rewrite Forall_forall in Hreg' |- *. intros b Hb.
      apply (registrable_agree (classes r)); [|now apply Hreg'].
      apply Hother. intros ->. apply Ha. now apply list_elem_of_In.
    + exists r'. split; [|split].
      * cbn [register_all]. rewrite Hrun. exact Hrun'.
      * simpl. now rewrite <- app_assoc.
      * intros b n. rewrite Hbears. unfold bears.
        destruct (decide (b = a)) as [-> | Hne].
        -- split; intros (x & Hx & Hxn).
           ++ exists c. split; [assumption | congruence].
           ++ exists c1. split; [assumption | congruence].
        -- now rewrite (Hother b Hne).
Qed.

(** ** Registration: the claims *)

(** C3. For a class whose verbs all declare the number 0, registration
    numbers them 0, 1, ..., k-1 in array order, k being the number of
    entries in front of the terminator; handlers and names stay, and so do
    the terminator and whatever memory holds behind it.  The count k fits
    an [int], as the counter of the loop is one. *)
Theorem register_auto_assigns_in_order (r : registry) (a : addr)
    (c : comms_class) (pre : list comms_verb) (term : comms_verb)
    (post : list comms_verb) :
  classes r !! a = Some c ->
  command_verbs c = Some (pre ++ term :: post) ->
  Forall (fun v => has_handler v = true /\ verb_number v = 0%Z) pre ->
  handler term = None ->
  (Z.of_nat (length pre) <= INT_MAX)%Z ->
  exists r' c' pre',
    comms_register_class (Some a) r = Ret (r', []) /\
    classes r' !! a = Some c' /\
    command_verbs c' = Some (pre' ++ term :: post) /\
    map verb_number pre' = map Z.of_nat (seq 0 (length pre)) /\
    map handler pre' = map handler pre /\
    map verb_name pre' = map verb_name pre.
Proof.
  intros Hc Hverbs Hpre Hterm Hlen.
  assert (Hlive : Forall (fun v => has_handler v = true) pre).
  { eapply Forall_impl; [exact Hpre|]. now intros v [Hv _]. }
  destruct (assign_scan_numbers pre term post 0 Hlive Hterm)
    as (pre' & Hscan & Hnum & Hhdl & Hnam); [lia | lia |].
  pose proof (requires_scan_all_zero pre term post Hpre Hterm) as Hreq.
  eexists _, _, pre'. split; [|split; [|split; [|split; [|split]]]].
  - exact (register_shape r a c _ _ true Hc Hverbs Hreq Hscan).
  - cbn. apply lookup_insert_eq.
  - reflexivity.
  - rewrite Hnum. apply map_ext. intros i. lia.
  - exact Hhdl.
  - exact Hnam.
Qed.

(** C4. For a class with a verb that declares a number other than 0,
    registration leaves the whole verb array as it was, the verbs that
    declare 0 included; no other object is written. *)
Theorem register_keeps_explicit_numbers (r : registry) (a : addr)
    (c : comms_class) (verbs : list comms_verb) :
  classes r !! a = Some c ->
  command_verbs c = Some verbs ->
  Exists (fun v => verb_number v <> 0%Z) (active_verbs verbs) ->
  exists r' c',
    comms_register_class (Some a) r = Ret (r', []) /\
    classes r' !! a = Some c' /\
    command_verbs c' = Some verbs /\
    forall b, b <> a -> classes r' !! b = classes r !! b.
Proof.
  intros Hc Hverbs Hex.
  pose proof (requires_scan_explicit verbs Hex) as Hreq.
  eexists _, _. split; [|split; [|split]].
  - exact (register_shape r a c verbs verbs false Hc Hverbs Hreq eq_refl).
  - cbn. apply lookup_insert_eq.
  - reflexivity.
  - intros b Hb. cbn. now rewrite lookup_insert_ne.
Qed.

(** C10. Registering a null class returns with the registry as it was: the
    list head, the list and every class object, verb numbers included, are
    the same; the only effect is the line logged. *)
Theorem register_null_changes_nothing (r : registry) :
  comms_register_class None r = Ret (r, [EvNullClass]).
Proof. reflexivity. Qed.

(** C5. After distinct classes are registered in the order [cs], starting
    from the empty list, [comms_get_class_by_number] returns the class
    registered last among those that bear the number asked for, and [NULL]
    when none of them bears it. *)
Theorem lookup_returns_most_recent (objects : gmap addr comms_class)
    (cs : list addr) (n : Z) :
  NoDup cs ->
  Forall (registrable objects) cs ->
  exists r,
    register_all cs (boot objects) = Ret r /\
    forall fuel, length cs <= fuel ->
      (forall earlier a later,
          cs = earlier ++ a :: later ->
          bears objects n a ->
          Forall (fun b => ~ bears objects n b) later ->
          comms_get_class_by_number fuel r n = Ret (Some a)) /\
      (Forall (fun b => ~ bears objects n b) cs ->
       comms_get_class_by_number fuel r n = Ret None).
Proof.
  intros Hnodup Hreg.
  destruct (register_all_chain cs (boot objects) [] (chain_null _) Hnodup)
    as (r & Hrun & Hchain & Hbears).
  { intros a _. apply not_elem_of_nil. }
  { exact Hreg. }
  exists r. split; [exact Hrun|]. intros fuel Hfuel.
  rewrite app_nil_r in Hchain. cbn in Hbears.
  assert (Hnot : forall l, Forall (fun b => ~ bears objects n b) l ->
                           Forall (fun b => ~ bears (classes r) n b) l).
  { intros l Hl. eapply Forall_impl; [exact Hl|].
    intros b Hb Hb'. apply Hb. now apply Hbears. }
  unfold comms_get_class_by_number. split.
  - intros earlier a later -> Ha Hlater.
    rewrite rev_app_distr in Hchain. cbn in Hchain. rewrite <- app_assoc in Hchain.
    apply (class_scan_found _ _ (rev later) a (rev earlier)); try assumption.
    + apply Hnot. now apply List.Forall_rev.
    + now apply Hbears.
    + rewrite length_rev. rewrite length_app in Hfuel. simpl in Hfuel. lia.
  - intros Hnone. apply (class_scan_absent _ _ (rev cs)); try assumption.
    + apply Hnot. now apply List.Forall_rev.
    + now rewrite length_rev.
Qed.

(** ** Dispatch: the claims *)

Section DispatchFacts.

Context {trans_area : Type}.
Variable comms_transaction_okay : command_transaction trans_area -> bool.
Variables EINVAL EBADMSG : Z.
Variable handler_code :
  fnptr -> command_transaction trans_area -> registry ->
  Z * command_transaction trans_area * registry.

Abbreviation scan := (submit_scan trans_area handler_code).
Abbreviation submit :=
  (comms_backend_submit_command trans_area comms_transaction_okay
     EINVAL EBADMSG handler_code).
Abbreviation status_of := (checked_status trans_area comms_transaction_okay EBADMSG).

Implicit Types (trans : command_transaction trans_area) (r : registry).

(** The loop calls the handler of the first entry that carries the number
    and stops there. *)
Lemma submit_scan_match (pre : list comms_verb) v rest h index trans r
    code trans' r' :
  passed_over (trans_verb trans) pre ->
  handler v = Some h ->
  verb_number v = trans_verb trans ->
  handler_code h trans r = (code, trans', r') ->
  scan (pre ++ v :: rest) index trans r =
    Ret {| found_handler := true; rc := code; trans_after := trans';
           registry_after := r';
           trace := [EvVerbHandler (index + length pre) h] |}.
Proof.
  intros Hpre Hh Hv Hcode. revert index.
  induction Hpre as [|u pre [Hu Hne] _ IH]; intros index; cbn [app submit_scan].
  - rewrite Hh, Hv, Z.eqb_refl, Hcode. cbn. now rewrite Nat.add_0_r.
  - apply has_handler_some in Hu as [hu ->].
    destruct (Z.eqb_spec (verb_number u) (trans_verb trans)) as [|_];
      [contradiction|].
    rewrite IH. cbn [length]. now rewrite Nat.add_succ_r.
Qed.

(** The loop ends at the terminator without a call when no entry in front
    of it carries the number. *)
Lemma submit_scan_no_match (pre : list comms_verb) term post index trans r :
  passed_over (trans_verb trans) pre ->
  handler term = None ->
  scan (pre ++ term :: post) index trans r =
    Ret {| found_handler := false; rc := 0; trans_after := trans;
           registry_after := r; trace := [] |}.
Proof.
  intros Hpre Hterm. revert index.
  induction Hpre as [|u pre [Hu Hne] _ IH]; intros index; cbn [app submit_scan].
  - now rewrite Hterm.
  - apply has_handler_some in Hu as [hu ->].
    destruct (Z.eqb_spec (verb_number u) (trans_verb trans)) as [|_];
      [contradiction|].
    apply IH.
Qed.

(** The dispatcher calls the handler the class selects, once, and returns
    the checked status. *)
Lemma submit_selected fuel backend trans r a c ev h code trans' r' :
  comms_get_class_by_number fuel r (trans_class_number trans) = Ret (Some a) ->
  classes r !! a = Some c ->
  selects c (trans_verb trans) ev h ->
  handler_code h trans r = (code, trans', r') ->
  submit fuel backend trans r = Ret (status_of code trans', trans', r', [ev]).
Proof.
  intros Hfind Hc Hsel Hcode. unfold comms_backend_submit_command.
  rewrite Hfind; cbn. rewrite Hc; cbn.
  destruct Hsel as [pre v rest h Hverbs Hpre Hh Hv | pre term post h Hverbs Hpre Hterm Hch].
  - rewrite Hverbs; cbn.
    rewrite (submit_scan_match pre v rest h 0 trans r code trans' r' Hpre Hh Hv Hcode).
    reflexivity.
  - rewrite Hverbs; cbn.
    rewrite (submit_scan_no_match pre term post 0 trans r Hpre Hterm).
    cbn. unfold delegate. rewrite Hch. cbn. now rewrite Hcode.
Qed.

(** Whatever the loop returns, it either called the handler of the first
    entry that carries the number, or it reached the terminator. *)
Lemma submit_scan_returns (verbs : list comms_verb) index trans r s :
  scan verbs index trans r = Ret s ->
  (exists pre v rest h,
      verbs = pre ++ v :: rest /\ passed_over (trans_verb trans) pre /\
      handler v = Some h /\ verb_number v = trans_verb trans /\
      found_handler s = true /\ trace s = [EvVerbHandler (index + length pre) h]) \/
  (exists pre term post,
      verbs = pre ++ term :: post /\ passed_over (trans_verb trans) pre /\
      handler term = None /\
      s = {| found_handler := false; rc := 0; trans_after := trans;
             registry_after := r; trace := [] |}).
Proof.
  revert index. induction verbs as [|u verbs IH]; intros index; cbn [submit_scan].
  - discriminate.
  - destruct (handler u) as [hu|] eqn:Hu.
    + destruct (Z.eqb_spec (verb_number u) (trans_verb trans)) as [Heq | Hne].
      * destruct (handler_code hu trans r) as [[code trans'] r'].
        intros [= <-]. left. exists [], u, verbs, hu. cbn.
        rewrite Nat.add_0_r. repeat split; auto. constructor.
      * intros Hs. assert (Hpass : has_handler u = true /\ verb_number u <> trans_verb trans).
        { split; [|assumption]. unfold has_handler. now rewrite Hu. }
        destruct (IH _ Hs) as [(pre & v & rest & h & -> & Hpre & Hh & Hv & Hf & Ht)
                              | (pre & term & post & -> & Hpre & Hterm & ->)].
        -- left. exists (u :: pre), v, rest, h. cbn [length].
           rewrite Nat.add_succ_r. repeat split; auto. now constructor.
        -- right. exists (u :: pre), term, post. repeat split; auto. now constructor.
    + intros [= <-]. right. exists [], u, verbs. repeat split; auto. constructor.
Qed.

(** A call recorded by the dispatcher is the call of the handler the
    class selects, and nothing else is recorded with it. *)
Lemma submit_call_is_selected fuel backend trans r status trans' r' log ev :
  submit fuel backend trans r = Ret (status, trans', r', log) ->
  In ev log -> is_call ev = true ->
  exists a c h,
    comms_get_class_by_number fuel r (trans_class_number trans) = Ret (Some a) /\
    classes r !! a = Some c /\
    selects c (trans_verb trans) ev h /\
    log = [ev].
Proof.
  unfold comms_backend_submit_command.
  destruct (comms_get_class_by_number fuel r (trans_class_number trans))
    as [[a|]| |] eqn:Hfind; cbn; try discriminate.
  2:{ intros [= <- <- <- <-] [<- | []]. discriminate. }
  destruct (classes r !! a) as [c|] eqn:Hc; cbn; [|discriminate].
  destruct (command_verbs c) as [verbs|] eqn:Hverbs; cbn.
  2:{ destruct (command_handler c); cbn; [discriminate|].
      intros [= <- <- <- <-] [<- | []]. discriminate. }
  destruct (scan verbs 0 trans r) as [s| |] eqn:Hscan; cbn; try discriminate.
  destruct (submit_scan_returns verbs 0 trans r s Hscan)
    as [(pre & v & rest & h & -> & Hpre & Hh & Hv & Hf & Ht)
       | (pre & term & post & -> & Hpre & Hterm & ->)].
  - unfold delegate. rewrite Hf. cbn. rewrite Hf, Ht. cbn.
    intros [= <- <- <- <-] [<- | []] _.
    exists a, c, h. repeat split; auto. econstructor; eauto.
  - unfold delegate. cbn. destruct (command_handler c) as [ch|] eqn:Hch; cbn.
    + destruct (handler_code ch trans r) as [[code t1] r1]. cbn.
      intros [= <- <- <- <-] [<- | []] _.
      exists a, c, ch. repeat split; auto. econstructor; eauto.
    + intros [= <- <- <- <-] [<- | []]. discriminate.
Qed.

(** C6. When an entry of the verb array of the resolved class carries the
    number submitted and the class has a catch-all handler as well, the
    dispatcher calls the handler of the first such entry in array order,
    and that is the only call: the catch-all handler is not called. *)
Theorem submit_prefers_matching_verb fuel backend trans r a c
    (pre : list comms_verb) v rest h ch code trans' r' :
  comms_get_class_by_number fuel r (trans_class_number trans) = Ret (Some a) ->
  classes r !! a = Some c ->
  command_verbs c = Some (pre ++ v :: rest) ->
  passed_over (trans_verb trans) pre ->
  handler v = Some h ->
  verb_number v = trans_verb trans ->
  command_handler c = Some ch ->
  handler_code h trans r = (code, trans', r') ->
  submit fuel backend trans r =
    Ret (status_of code trans', trans', r', [EvVerbHandler (length pre) h]).
Proof.
  intros Hfind Hc Hverbs Hpre Hh Hv _ Hcode.
  apply (submit_selected fuel backend trans r a c _ h); auto.
  now apply (selects_verb c _ pre v rest h).
Qed.

(** C7. When no entry of the verb array of the resolved class carries the
    number submitted and the class has a catch-all handler, the dispatcher
    calls that handler on the transaction, as its only call, and returns
    the handler's return code: a code other than 0 as it is, and 0 as 0
    unless [comms_transaction_okay] fails on the transaction the handler
    left, in which case lines 181 to 183 make it [EBADMSG]. *)
Theorem submit_falls_back_to_class_handler fuel backend trans r a c
    (pre : list comms_verb) term post ch code trans' r' :
  comms_get_class_by_number fuel r (trans_class_number trans) = Ret (Some a) ->
  classes r !! a = Some c ->
  command_verbs c = Some (pre ++ term :: post) ->
  passed_over (trans_verb trans) pre ->
  handler term = None ->
  command_handler c = Some ch ->
  handler_code ch trans r = (code, trans', r') ->
  exists status,
    submit fuel backend trans r =
      Ret (status, trans', r', [EvClassHandler ch]) /\
    (code <> 0%Z -> status = code) /\
    (code = 0%Z -> comms_transaction_okay trans' = true -> status = code) /\
    (code = 0%Z -> comms_transaction_okay trans' = false -> status = EBADMSG).
Proof.
  intros Hfind Hc Hverbs Hpre Hterm Hch Hcode. eexists. split.
  - apply (submit_selected fuel backend trans r a c _ ch code trans' r'); auto.
    now apply (selects_class c _ pre term post ch).
  - unfold checked_status. repeat split.
    + intros Hne. apply Z.eqb_neq in Hne. now rewrite Hne.
    + intros -> ->. reflexivity.
    + intros -> ->. reflexivity.
Qed.

(** C8. When the resolved class has no catch-all handler and no entry of
    its verb array carries the number submitted (or it has no verb array
    at all), the dispatcher returns [EINVAL], calls no handler, and leaves
    the transaction and the registry as they were. *)
Theorem submit_unhandled_verb_is_invalid fuel backend trans r a c :
  comms_get_class_by_number fuel r (trans_class_number trans) = Ret (Some a) ->
  classes r !! a = Some c ->
  command_handler c = None ->
  (command_verbs c = None \/
   exists pre term post,
     command_verbs c = Some (pre ++ term :: post) /\
     passed_over (trans_verb trans) pre /\ handler term = None) ->
  exists log,
    submit fuel backend trans r = Ret (EINVAL, trans, r, log) /\
    Forall (fun ev => is_call ev = false) log.
Proof.
  intros Hfind Hc Hch Hverbs. unfold comms_backend_submit_command.
  rewrite Hfind; cbn. rewrite Hc; cbn. rewrite Hch.
  destruct Hverbs as [-> | (pre & term & post & -> & Hpre & Hterm)]; cbn.
  - eexists. split; [reflexivity|]. now repeat constructor.
  - rewrite (submit_scan_no_match pre term post 0 trans r Hpre Hterm). cbn.
    eexists. split; [reflexivity|]. now repeat constructor.
Qed.

(** C9. When the handler the dispatcher calls returns 0 and
    [comms_transaction_okay] fails on the transaction it leaves, the
    dispatcher returns [EBADMSG]; when the handler returns a code other
    than 0, the dispatcher returns that code, whatever
    [comms_transaction_okay] says. *)
Theorem submit_checks_only_success fuel backend trans r a c ev h
    code trans' r' :
  comms_get_class_by_number fuel r (trans_class_number trans) = Ret (Some a) ->
  classes r !! a = Some c ->
  selects c (trans_verb trans) ev h ->
  handler_code h trans r = (code, trans', r') ->
  exists status,
    submit fuel backend trans r = Ret (status, trans', r', [ev]) /\
    (code = 0%Z -> comms_transaction_okay trans' = false -> status = EBADMSG) /\
    (code = 0%Z -> comms_transaction_okay trans' = true -> status = 0%Z) /\
    (code <> 0%Z -> status = code).
Proof.
  intros Hfind Hc Hsel Hcode. eexists. split.
  - exact (submit_selected fuel backend trans r a c ev h code trans' r'
             Hfind Hc Hsel Hcode).
  - unfold checked_status. repeat split.
    + intros -> ->. reflexivity.
    + intros -> ->. reflexivity.
    + intros Hne. apply Z.eqb_neq in Hne. now rewrite Hne.
Qed.

(** C1, as the code has it. A class with a catch-all handler and no verb
    array cannot be registered: the first loop of the registration reads
    the handler of the entry at [NULL].  Were such a class on the list,
    the loop of the dispatcher would read the same entry. *)
Theorem null_verb_array_faults fuel backend trans r a c ch :
  classes r !! a = Some c ->
  command_verbs c = None ->
  command_handler c = Some ch ->
  comms_register_class (Some a) r = Fault /\
  (comms_get_class_by_number fuel r (trans_class_number trans) = Ret (Some a) ->
   submit fuel backend trans r = Fault).
Proof.
  intros Hc Hverbs Hch. split.
  - unfold comms_register_class, comms_class_requires_verb_assignment.
    rewrite Hc; cbn. now rewrite Hverbs.
  - intros Hfind. unfold comms_backend_submit_command.
    rewrite Hfind; cbn. rewrite Hc; cbn. now rewrite Hverbs, Hch.
Qed.

End DispatchFacts.

(** ** Introspection: the claim *)

(** C2, as the code has it. For a class number that no registered class
    bears, [comms_get_handler_name] reads [command_handler] through the
    [NULL] that the lookup returned. *)
Theorem handler_name_of_unknown_class_faults (fuel : nat) (r : registry)
    (class_no verb_no : Z) (class_handler_string default_string : cstr) :
  comms_get_class_by_number fuel r class_no = Ret None ->
  comms_get_handler_name fuel r class_no verb_no
    class_handler_string default_string = Fault.
Proof.
  intros Hfind. unfold comms_get_handler_name, comms_get_object_for_verb.
  now rewrite Hfind.
Qed.

(** ** The statements on the device *)

Ltac run := vm_compute; reflexivity.

Lemma register_auto_assigns_in_order_witness :
  exists r' c' pre',
    comms_register_class (Some 1%positive) (boot Device.objects) = Ret (r', []) /\
    classes r' !! 1%positive = Some c' /\
    command_verbs c' = Some (pre' ++ Device.terminator :: []) /\
    map verb_number pre' = [0; 1; 2]%Z /\
    map handler pre' = [Some 10; Some 11; Some 12]%positive /\
    map verb_name pre' = [Some "A"; Some "B"; None]%string.
Proof.
  apply (register_auto_assigns_in_order (boot Device.objects) 1%positive Device.gpio
           [Device.entry 0 (Some "A"%string) (Some 10%positive);
            Device.entry 0 (Some "B"%string) (Some 11%positive);
            Device.entry 0 None (Some 12%positive)]
           Device.terminator []).
  - run.
  - reflexivity.
  - repeat constructor.
  - reflexivity.
  - vm_compute. discriminate.
Defined.

Lemma register_keeps_explicit_numbers_witness :
  exists r' c',
    comms_register_class (Some 3%positive) (boot Device.objects) = Ret (r', []) /\
    classes r' !! 3%positive = Some c' /\
    command_verbs c' = command_verbs Device.spi2 /\
    forall b, b <> 3%positive -> classes r' !! b = Device.objects !! b.
Proof.
  apply (register_keeps_explicit_numbers (boot Device.objects) 3%positive Device.spi2).
  - run.
  - reflexivity.
  - apply Exists_cons_tl, Exists_cons_hd. discriminate.
Defined.

Lemma lookup_returns_most_recent_witness :
  exists r,
    register_all [1; 2; 3]%positive (boot Device.objects) = Ret r /\
    comms_get_class_by_number 3 r 7 = Ret (Some 3%positive) /\
    comms_get_class_by_number 3 r 99 = Ret None.
Proof.
  assert (Hreg : forall a c verbs,
             Device.objects !! a = Some c -> command_verbs c = Some verbs ->
             existsb (fun v => is_null (handler v)) verbs = true ->
             (Z.of_nat (length (active_verbs verbs)) <=? INT_MAX)%Z = true ->
             registrable Device.objects a).
  { intros a c verbs Hc Hverbs Hterm Hlen. exists c, verbs.
    repeat split; try assumption.
    - apply existsb_exists in Hterm as (v & Hv & Hnull).
      apply List.Exists_exists. exists v. split; [assumption|].
      now destruct (handler v).
    - now apply Z.leb_le. }
  assert (Hno : forall a c n, Device.objects !! a = Some c ->
                              class_number c <> n -> ~ bears Device.objects n a).
  { intros a c n Hc Hne (c' & Hc' & Hn). congruence. }
  destruct (lookup_returns_most_recent Device.objects [1; 2; 3]%positive 7)
    as (r & Hrun & Hseven).
  { repeat constructor; rewrite ?elem_of_cons, elem_of_nil; intuition discriminate. }
  { repeat constructor; eapply Hreg; reflexivity. }
  destruct (lookup_returns_most_recent Device.objects [1; 2; 3]%positive 99)
    as (r99 & Hrun99 & Hnone).
  { repeat constructor; rewrite ?elem_of_cons, elem_of_nil; intuition discriminate. }
  { repeat constructor; eapply Hreg; reflexivity. }
  assert (r99 = r) by congruence; subst r99.
  exists r. split; [exact Hrun|]. split.
  - apply (proj1 (Hseven 3 (le_n 3)) [1; 2]%positive 3%positive []).
    + reflexivity.
    + exists Device.spi2. split; reflexivity.
    + constructor.
  - apply (proj2 (Hnone 3 (le_n 3))).
    repeat constructor; eapply Hno; try reflexivity; discriminate.
Defined.

Lemma submit_prefers_matching_verb_witness :
  Device.submit 2 Device.usb (Device.transaction 7 3) Device.early =
    Ret (0%Z, Device.respond 20 (Device.transaction 7 3), Device.early,
         [EvVerbHandler 0 20%positive]).
Proof.
  apply (submit_prefers_matching_verb Device.transaction_okay
           Device.EINVAL Device.EBADMSG Device.code
           2 Device.usb (Device.transaction 7 3) Device.early
           2%positive (set_next Device.spi (Some 1%positive))
           [] (Device.entry 3 (Some "X"%string) (Some 20%positive))
           [Device.terminator] 20%positive 21%positive
           0%Z (Device.respond 20 (Device.transaction 7 3)) Device.early).
  - run.
  - run.
  - reflexivity.
  - constructor.
  - reflexivity.
  - reflexivity.
  - reflexivity.
  - reflexivity.
Defined.

Lemma submit_falls_back_to_class_handler_witness :
  Device.submit 2 Device.usb (Device.transaction 7 9) Device.early =
    Ret (0%Z, Device.respond 21 (Device.transaction 7 9), Device.early,
         [EvClassHandler 21%positive]).
Proof.
  destruct (submit_falls_back_to_class_handler Device.transaction_okay
              Device.EINVAL Device.EBADMSG Device.code
              2 Device.usb (Device.transaction 7 9) Device.early
              2%positive (set_next Device.spi (Some 1%positive))
              [Device.entry 3 (Some "X"%string) (Some 20%positive)]
              Device.terminator [] 21%positive
              0%Z (Device.respond 21 (Device.transaction 7 9)) Device.early)
    as (status & Hrun & _ & Hok & _).
  - run.
  - run.
  - reflexivity.
  - repeat constructor. discriminate.
  - reflexivity.
  - reflexivity.
  - reflexivity.
  - rewrite <- (Hok eq_refl eq_refl). exact Hrun.
Defined.

Lemma submit_unhandled_verb_is_invalid_witness :
  exists log,
    Device.submit 3 Device.usb (Device.transaction 5 7) Device.registered =
      Ret (Device.EINVAL, Device.transaction 5 7, Device.registered, log) /\
    Forall (fun ev => is_call ev = false) log.
Proof.
  apply (submit_unhandled_verb_is_invalid Device.transaction_okay
           Device.EINVAL Device.EBADMSG Device.code
           3 Device.usb (Device.transaction 5 7) Device.registered
           1%positive
           (set_command_verbs Device.gpio
              (Device.gpio_numbered ++ [Device.terminator]))).
  - run.
  - run.
  - reflexivity.
  - right. exists Device.gpio_numbered, Device.terminator, [].
    split; [reflexivity|]. split; [|reflexivity].
    repeat constructor; discriminate.
Defined.

Lemma submit_checks_only_success_witness :
  Device.submit 3 Device.usb (Device.transaction 7 0) Device.registered =
    Ret (Device.EBADMSG, Device.respond (-1) (Device.transaction 7 0),
         Device.registered, [EvVerbHandler 0 31%positive]) /\
  Device.submit 3 Device.usb (Device.transaction 7 4) Device.registered =
    Ret (5%Z, Device.transaction 7 4, Device.registered,
         [EvVerbHandler 1 30%positive]).
Proof.
  pose (c := set_next Device.spi2 (Some 2%positive)).
  assert (Hfind : forall verb_no,
             comms_get_class_by_number 3 Device.registered
               (trans_class_number (Device.transaction 7 verb_no)) =
             Ret (Some 3%positive)) by (intros verb_no; run).
  assert (Hc : classes Device.registered !! 3%positive = Some c) by run.
  split.
  - destruct (submit_checks_only_success Device.transaction_okay
                Device.EINVAL Device.EBADMSG Device.code
                3 Device.usb (Device.transaction 7 0) Device.registered
                3%positive c (EvVerbHandler 0 31%positive) 31%positive
                0%Z (Device.respond (-1) (Device.transaction 7 0))
                Device.registered (Hfind 0%Z) Hc)
      as (status & Hrun & Hbad & _ & _).
    + apply (selects_verb c 0 [] (Device.entry 0 None (Some 31%positive))
               [Device.entry 4 None (Some 30%positive); Device.terminator]
               31%positive); try reflexivity. constructor.
    + reflexivity.
    + rewrite <- (Hbad eq_refl eq_refl). exact Hrun.
  - destruct (submit_checks_only_success Device.transaction_okay
                Device.EINVAL Device.EBADMSG Device.code
                3 Device.usb (Device.transaction 7 4) Device.registered
                3%positive c (EvVerbHandler 1 30%positive) 30%positive
                5%Z (Device.transaction 7 4)
                Device.registered (Hfind 4%Z) Hc)
      as (status & Hrun & _ & _ & Hcode).
    + apply (selects_verb c 4 [Device.entry 0 None (Some 31%positive)]
               (Device.entry 4 None (Some 30%positive))
               [Device.terminator] 30%positive); try reflexivity.
      repeat constructor. discriminate.
    + reflexivity.
    + rewrite <- Hcode by discriminate. exact Hrun.
Defined.

Lemma null_verb_array_faults_witness :
  comms_register_class (Some 4%positive) Device.with_bare = Fault /\
  Device.submit 1 Device.usb (Device.transaction 9 0) Device.with_bare = Fault.
Proof.
  destruct (null_verb_array_faults Device.transaction_okay
              Device.EINVAL Device.EBADMSG Device.code
              1 Device.usb (Device.transaction 9 0) Device.with_bare
              4%positive Device.bare 21%positive)
    as [Hregister Hsubmit]; try reflexivity.
  split; [exact Hregister | apply Hsubmit; reflexivity].
Defined.

Lemma handler_name_of_unknown_class_faults_witness :
  comms_get_handler_name 3 Device.registered 99 0
    (Some "class"%string) (Some "default"%string) = Fault.
Proof.
  apply handler_name_of_unknown_class_faults. run.
Defined.

(** ** The scenarios of the specification *)

(** Class 5 with three verbs declared 0: numbered 0, 1, 2 by its
    registration. *)
Example scenario_numbering :
  (c ← deref (classes Device.registered !! 1%positive);
   verbs ← deref (command_verbs c);
   Ret (map verb_number (active_verbs verbs))) = Ret [0; 1; 2]%Z.
Proof. run. Qed.

(** Verb 1 of class 5 goes to the second handler only. *)
Example scenario_second_verb :
  Device.submit 3 Device.usb (Device.transaction 5 1) Device.registered =
    Ret (0%Z, Device.respond 11 (Device.transaction 5 1), Device.registered,
         [EvVerbHandler 1 11%positive]).
Proof. run. Qed.

(** A class number that nobody registered: [EINVAL] and no call. *)
Example scenario_unknown_class :
  Device.submit 3 Device.usb (Device.transaction 99 0) Device.registered =
    Ret (Device.EINVAL, Device.transaction 99 0, Device.registered,
         [EvUnknownClass (Some "usb"%string) 99]).
Proof. run. Qed.

(** The class with a handler and no verb array cannot be registered at
    boot. *)
Example scenario_bare_class :
  comms_register_class (Some 4%positive) (boot Device.objects) = Fault.
Proof. run. Qed.

(** Registering the same object twice ties the list into a ring: a lookup
    of a number that the object does not bear never ends. *)
Example scenario_registered_twice :
  forall fuel,
    (r ← register_all [1; 1]%positive (boot Device.objects);
     comms_get_class_by_number fuel r 99) = OutOfFuel.
Proof.
  intros fuel.
  assert (Hrun : exists r, register_all [1; 1]%positive (boot Device.objects) = Ret r /\
                           class_head r = Some 1%positive /\
                           exists c, classes r !! 1%positive = Some c /\
                                     class_number c = 5%Z /\ next c = Some 1%positive).
  { eexists. split; [run|]. split; [run|]. eexists. split; [run|]. split; reflexivity. }
  destruct Hrun as (r & -> & Hhead & c & Hc & Hn & Hnext). cbn.
  unfold comms_get_class_by_number. rewrite Hhead.
  induction fuel as [|fuel IH]; [reflexivity|].
  cbn [class_scan]. unfold addr in *. rewrite Hc. cbn [deref mbind outcome_bind].
  rewrite Hn, Hnext. exact IH.
Qed.


(** * Further properties of the code *)

(** ** Verb arrays, whatever their numbers *)

Lemma same_entries_refl (verbs : list comms_verb) : same_entries verbs verbs.
Proof. now split. Qed.

Lemma same_entries_trans (v1 v2 v3 : list comms_verb) :
  same_entries v1 v2 -> same_entries v2 v3 -> same_entries v1 v3.
Proof. intros [H1 H2] [H3 H4]. split; congruence. Qed.

Lemma same_entries_active (verbs verbs' : list comms_verb) :
  map handler verbs' = map handler verbs ->
  map handler (active_verbs verbs') = map handler (active_verbs verbs).
Proof.
  revert verbs'. induction verbs as [|v verbs IH]; intros [|v' verbs'] Hmap;
    try discriminate; [reflexivity|].
  injection Hmap as Hv Hrest. cbn. unfold has_handler. rewrite Hv.
  destruct (handler v) eqn:Hh; cbn; [|reflexivity].
  f_equal; [congruence | now apply IH].
Qed.

Lemma same_entries_terminated (verbs verbs' : list comms_verb) :
  map handler verbs' = map handler verbs ->
  terminated verbs -> terminated verbs'.
Proof.
  unfold terminated. intros Hmap Hterm. revert verbs' Hmap.
  induction Hterm as [v verbs Hv | v verbs _ IH]; intros [|v' verbs'] Hmap;
    try discriminate; injection Hmap as Hv' Hrest.
  - left. congruence.
  - right. now apply IH.
Qed.

Lemma same_entries_registrable (heap heap' : gmap addr comms_class) a c c' :
  heap !! a = Some c -> heap' !! a = Some c' -> same_class c c' ->
  registrable heap a -> registrable heap' a.
Proof.
  intros Hc Hc' (_ & _ & _ & Hverbs) (c0 & verbs & Hc0 & Hv & Hterm & Hlen).
  assert (c0 = c) by congruence; subst c0. rewrite Hv in Hverbs.
  destruct (command_verbs c') as [verbs'|] eqn:Hv'; [|contradiction].
  destruct Hverbs as [Hh _]. exists c', verbs'. repeat split; try assumption.
  - now apply (same_entries_terminated verbs).
  - rewrite <- (length_map handler), (same_entries_active verbs verbs' Hh),
      length_map. exact Hlen.
Qed.

(** On an array with a terminator, the first scan returns. *)
Lemma requires_scan_returns (pre : list comms_verb) term post :
  Forall (fun v => has_handler v = true) pre -> handler term = None ->
  exists needs, requires_scan (pre ++ term :: post) = Ret needs.
Proof.
  induction 1 as [|v pre Hv _ IH]; intros Hterm; cbn.
  - rewrite Hterm. eauto.
  - apply has_handler_some in Hv as [h ->].
    destruct (verb_number v =? 0)%Z; [now apply IH | eauto].
Qed.

(** The second scan leaves an array alone whose verbs are numbered upwards
    from [n] already. *)
Lemma assign_scan_fixed (pre : list comms_verb) term post (n : Z) :
  Forall (fun v => has_handler v = true) pre ->
  handler term = None ->
  (0 <= n)%Z -> (n + Z.of_nat (length pre) <= INT_MAX)%Z ->
  map verb_number pre = map (fun i => (n + Z.of_nat i)%Z) (seq 0 (length pre)) ->
  assign_scan (pre ++ term :: post) n = Ret (pre ++ term :: post).
Proof.
  intros Hpre Hterm. revert n.
  induction Hpre as [|v pre Hv _ IH]; intros n Hn Hmax Hnum; cbn [app assign_scan].
  - now rewrite Hterm.
  - cbn [length] in Hmax. apply has_handler_some in Hv as [h Hh]. rewrite Hh.
    destruct (Z.leb_spec INT_MAX n) as [Hle|_]; [lia|].
    cbn [length seq map] in Hnum. injection Hnum as Hv Hrest.
    rewrite IH; [| lia | lia |].
    + cbn. do 2 f_equal. unfold to_uint32.
      rewrite Z.mod_small by (unfold INT_MAX in Hmax; lia).
      destruct v as [num nam hdl]. cbn in Hv |- *. unfold set_verb_number. cbn.
      f_equal. lia.
    + rewrite Hrest, <- seq_shift, map_map. apply map_ext. intros i. lia.
Qed.

Lemma same_handlers_live (pre pre' : list comms_verb) :
  map handler pre' = map handler pre ->
  Forall (fun v => has_handler v = true) pre ->
  Forall (fun v => has_handler v = true) pre'.
Proof.
  revert pre'. induction pre as [|v pre IH]; intros [|v' pre'] Hmap Hpre;
    try discriminate; [constructor|].
  injection Hmap as Hv Hrest. inversion Hpre as [|? ? Hlive Hpre']; subst.
  constructor; [|now apply IH]. unfold has_handler in *. now rewrite Hv.
Qed.

(** The two scans of a registration return on every array with a terminator
    and fewer verbs than an [int] counts; what they leave differs from the
    array in verb numbers only, and a second run of the two scans leaves it
    as it is. *)
Lemma numbering_returns (verbs : list comms_verb) :
  terminated verbs ->
  (Z.of_nat (length (active_verbs verbs)) <= INT_MAX)%Z ->
  exists needs verbs' needs',
    requires_scan verbs = Ret needs /\
    (if needs then assign_scan verbs 0 else Ret verbs) = Ret verbs' /\
    same_entries verbs verbs' /\
    requires_scan verbs' = Ret needs' /\
    (if needs' then assign_scan verbs' 0 else Ret verbs') = Ret verbs'.
Proof.
  intros Hterm Hlen.
  destruct (terminated_split verbs Hterm) as (term & post & Hsplit & Hnull).
  pose proof (active_verbs_have_handler verbs) as Hact.
  set (pre := active_verbs verbs) in *.
  destruct (all_zero_or_explicit pre) as [Hall | Hex].
  - assert (Hzero : Forall (fun v => has_handler v = true /\ verb_number v = 0%Z) pre).
    { rewrite Forall_forall in Hact, Hall |- *. intros v Hv. split; auto. }
    destruct (assign_scan_numbers pre term post 0 Hact Hnull)
      as (pre' & Hscan & Hnum & Hhdl & Hnam); [lia | lia |].
    pose proof (same_handlers_live pre pre' Hhdl Hact) as Hact'.
    assert (Hlen' : length pre' = length pre).
    { now rewrite <- (length_map handler pre'), Hhdl, length_map. }
    destruct (requires_scan_returns pre' term post Hact' Hnull) as (needs' & Hreq').
    exists true, (pre' ++ term :: post), needs'. rewrite Hsplit.
    split; [now apply requires_scan_all_zero|]. split; [exact Hscan|].
    split; [|split; [exact Hreq'|]].
    + split; rewrite !map_app; cbn; congruence.
    + destruct needs'; [|reflexivity].
      apply assign_scan_fixed; try assumption; try lia.
      now rewrite Hlen'.
  - assert (Hreq : requires_scan verbs = Ret false).
    { apply requires_scan_explicit. exact Hex. }
    exists false, verbs, false. repeat split; assumption.
Qed.

(** ** One registration, in full *)

(** What a registration does, for every class object with a terminated
    verb array. *)
Lemma register_effect (r : registry) (a : addr) :
  registrable (classes r) a ->
  exists r' c c',
    comms_register_class (Some a) r = Ret (r', []) /\
    class_head r' = Some a /\
    classes r !! a = Some c /\
    classes r' !! a = Some c' /\
    next c' = class_head r /\
    same_class c c' /\
    forall b, b <> a -> classes r' !! b = classes r !! b.
Proof.
  intros (c & verbs & Hc & Hverbs & Hterm & Hlen).
  destruct (numbering_returns verbs Hterm Hlen)
    as (needs & verbs' & _ & Hreq & Hassign & Hsame & _).
  eexists _, c, _. split.
  { exact (register_shape r a c verbs verbs' needs Hc Hverbs Hreq Hassign). }
  cbn. rewrite lookup_insert_eq. repeat split; try reflexivity; try assumption.
  - cbn. now rewrite Hverbs.
  - intros b Hb. now rewrite lookup_insert_ne.
Qed.

(** X1. Registering a class object with a terminated verb array returns
    without a fault and writes to that object only: its link takes the old
    list head, its verbs keep their handlers and names, and its class
    number, name and class handler stay; the object becomes the list
    head. *)
Theorem register_touches_numbers_and_link_only (r : registry) (a : addr) :
  registrable (classes r) a ->
  exists r' c c',
    comms_register_class (Some a) r = Ret (r', []) /\
    class_head r' = Some a /\
    classes r !! a = Some c /\
    classes r' !! a = Some c' /\
    next c' = class_head r /\
    same_class c c' /\
    forall b, b <> a -> classes r' !! b = classes r !! b.
Proof. exact (register_effect r a). Qed.

(** X2. Registering the same object a second time does not renumber its
    verbs: the verb array after the second registration is the one the
    first registration left. *)
Theorem register_again_keeps_numbers (r : registry) (a : addr) :
  registrable (classes r) a ->
  exists r1 r2 c1 c2,
    comms_register_class (Some a) r = Ret (r1, []) /\
    comms_register_class (Some a) r1 = Ret (r2, []) /\
    classes r1 !! a = Some c1 /\
    classes r2 !! a = Some c2 /\
    command_verbs c2 = command_verbs c1.
Proof.
  intros (c & verbs & Hc & Hverbs & Hterm & Hlen).
  destruct (numbering_returns verbs Hterm Hlen)
    as (needs & verbs' & needs' & Hreq & Hassign & _ & Hreq' & Hassign').
  pose proof (register_shape r a c verbs verbs' needs Hc Hverbs Hreq Hassign) as Hrun1.
  set (c1 := set_next (set_command_verbs c verbs') (class_head r)) in *.
  set (r1 := {| classes := <[a := c1]> (classes r); class_head := Some a |}) in *.
  assert (Hc1 : classes r1 !! a = Some c1) by apply lookup_insert_eq.
  pose proof (register_shape r1 a c1 verbs' verbs' needs' Hc1 eq_refl Hreq' Hassign')
    as Hrun2.
  eexists r1, _, c1, _. split; [exact Hrun1|]. split; [exact Hrun2|].
  split; [exact Hc1|]. split; [apply lookup_insert_eq|]. reflexivity.
Qed.

(** ** Lookup after registration *)

Lemma class_scan_agree (heap heap' : gmap addr comms_class) p (l : list addr)
    (n : Z) (fuel : nat) :
  chain heap p l -> (forall b, b ∈ l -> heap' !! b = heap !! b) ->
  class_scan fuel heap' p n = class_scan fuel heap p n.
Proof.
  intros Hchain. revert fuel.
  induction Hchain as [|a c l Hc _ IH]; intros fuel Hsame.
  - now destruct fuel.
  - destruct fuel as [|fuel]; [reflexivity|].
    cbn [class_scan]. rewrite (Hsame a) by left. rewrite Hc. cbn.
    destruct (class_number c =? n)%Z; [reflexivity|].
    apply IH. intros b Hb. apply Hsame. now right.
Qed.

(** X3. Whatever the list looks like, a class that the lookup returns bears
    the number asked for. *)
Theorem lookup_result_bears_number (fuel : nat) (r : registry) (n : Z) (a : addr) :
  comms_get_class_by_number fuel r n = Ret (Some a) ->
  bears (classes r) n a.
Proof.
  unfold comms_get_class_by_number. generalize (class_head r) as p.
  induction fuel as [|fuel IH]; intros [b|]; cbn; try discriminate.
  destruct (classes r !! b) as [c|] eqn:Hc; cbn; [|discriminate].
  destruct (Z.eqb_spec (class_number c) n) as [Hn | _].
  - intros [= <-]. now exists c.
  - apply IH.
Qed.

(** X4. A class just registered is the one the lookup of its number
    returns, at the first node it visits, whatever was registered before. *)
Theorem register_then_lookup (r : registry) (a : addr) (c : comms_class) :
  registrable (classes r) a ->
  classes r !! a = Some c ->
  exists r',
    comms_register_class (Some a) r = Ret (r', []) /\
    forall fuel,
      comms_get_class_by_number (S fuel) r' (class_number c) = Ret (Some a).
Proof.
  intros Hreg Hc.
  destruct (register_effect r a Hreg)
    as (r' & c0 & c' & Hrun & Hhead & Hc0 & Hc' & _ & (Hnum & _) & _).
  assert (c0 = c) by congruence; subst c0.
  exists r'. split; [exact Hrun|]. intros fuel.
  unfold comms_get_class_by_number. rewrite Hhead. cbn [class_scan].
  rewrite Hc'. cbn. now rewrite Hnum, Z.eqb_refl.
Qed.

(** X5. Registering an object that is not on the list yet does not disturb
    the lookup of any other class number: it costs one more node, and
    returns what it returned before. *)
Theorem register_keeps_other_lookups (r : registry) (l : list addr) (a : addr)
    (c : comms_class) (n : Z) :
  chain (classes r) (class_head r) l ->
  a ∉ l ->
  registrable (classes r) a ->
  classes r !! a = Some c ->
  class_number c <> n ->
  exists r',
    comms_register_class (Some a) r = Ret (r', []) /\
    forall fuel,
      comms_get_class_by_number (S fuel) r' n =
      comms_get_class_by_number fuel r n.
Proof.
  intros Hchain Hfresh Hreg Hc Hne.
  destruct (register_effect r a Hreg)
    as (r' & c0 & c' & Hrun & Hhead & Hc0 & Hc' & Hnext & (Hnum & _) & Hother).
  assert (c0 = c) by congruence; subst c0.
  exists r'. split; [exact Hrun|]. intros fuel.
  unfold comms_get_class_by_number. rewrite Hhead. cbn [class_scan].
  rewrite Hc'. cbn. rewrite Hnum.
  destruct (Z.eqb_spec (class_number c) n) as [|_]; [contradiction|].
  rewrite Hnext. apply (class_scan_agree _ _ _ l); [assumption|].
  intros b Hb. apply Hother. intros ->. contradiction.
Qed.

(** A set of nodes, none bearing [n], whose links all lead back into the
    set: a scan that enters it never leaves. *)
Lemma class_scan_ring (heap : gmap addr comms_class) (ring : list addr) (n : Z) :
  (forall b, b ∈ ring ->
     exists cb b', heap !! b = Some cb /\ class_number cb <> n /\
                   next cb = Some b' /\ b' ∈ ring) ->
  forall fuel b, b ∈ ring -> class_scan fuel heap (Some b) n = OutOfFuel.
Proof.
  intros Hring. induction fuel as [|fuel IH]; intros b Hb; [reflexivity|].
  destruct (Hring b Hb) as (cb & b' & Hcb & Hn & Hnext & Hb').
  cbn [class_scan]. rewrite Hcb. cbn.
  destruct (Z.eqb_spec (class_number cb) n) as [|_]; [contradiction|].
  rewrite Hnext. now apply IH.
Qed.

(** Every node in front of [a] on a list links to a node in front of [a]
    or to [a]. *)
Lemma chain_front_links (heap : gmap addr comms_class) p
    (front : list addr) a (back : list addr) :
  chain heap p (front ++ a :: back) ->
  p = Some (hd a front) /\
  forall b, b ∈ front ->
    exists cb b', heap !! b = Some cb /\ next cb = Some b' /\ b' ∈ front ++ [a].
Proof.
  revert p. induction front as [|x front IH]; intros p Hchain;
    inversion Hchain as [|y cy l Hy Hrest]; subst; cbn.
  - split; [reflexivity|]. intros b Hb. now apply elem_of_nil in Hb.
  - destruct (IH _ Hrest) as (Hnext & Hlinks).
    split; [reflexivity|]. intros b Hb. apply elem_of_cons in Hb as [-> | Hb].
    + exists cy, (hd a front). repeat split; try assumption.
      right. destruct front; cbn; [left | left].
    + destruct (Hlinks b Hb) as (cb & b' & Hcb & Hb' & Hin).
      exists cb, b'. repeat split; try assumption. now right.
Qed.

(** X6. Registering an object that is on the list already ties the list
    into a ring through it: the lookup of a number that neither the object
    nor the nodes in front of it bear never returns, not even when a class
    behind it bears the number. *)
Theorem register_listed_object_makes_ring (r : registry)
    (front : list addr) (a : addr) (back : list addr) (n : Z) :
  chain (classes r) (class_head r) (front ++ a :: back) ->
  a ∉ front ->
  registrable (classes r) a ->
  (forall b, b ∈ a :: front -> ~ bears (classes r) n b) ->
  exists r',
    comms_register_class (Some a) r = Ret (r', []) /\
    forall fuel, comms_get_class_by_number fuel r' n = OutOfFuel.
Proof.
  intros Hchain Hfresh Hreg Hnone.
  destruct (register_effect r a Hreg)
    as (r' & c & c' & Hrun & Hhead & Hc & Hc' & Hnext & (Hnum & _) & Hother).
  destruct (chain_front_links _ _ _ _ _ Hchain) as (Hold & Hlinks).
  exists r'. split; [exact Hrun|]. intros fuel.
  unfold comms_get_class_by_number. rewrite Hhead.
  apply (class_scan_ring _ (a :: front)); [|left].
  intros b Hb. destruct (decide (b = a)) as [-> | Hne].
  - exists c', (hd a front). repeat split.
    + exact Hc'.
    + rewrite Hnum. intros Hn. apply (Hnone a); [left | now exists c].
    + now rewrite Hnext, Hold.
    + destruct front; cbn; [left | right; left].
  - apply elem_of_cons in Hb as [|Hb]; [contradiction|].
    destruct (Hlinks b Hb) as (cb & b' & Hcb & Hb' & Hin).
    exists cb, b'. repeat split.
    + now rewrite Hother.
    + intros Hn. apply (Hnone b); [now right | now exists cb].
    + exact Hb'.
    + apply elem_of_app in Hin as [Hin | Hin]; [now right|].
      apply elem_of_cons in Hin as [-> | Hin]; [left|].
      now apply elem_of_nil in Hin.
Qed.

(** ** The list stays well formed *)

Lemma same_class_refl (c : comms_class) : same_class c c.
Proof.
  repeat split. destruct (command_verbs c); [apply same_entries_refl | exact I].
Qed.

Lemma same_class_trans (c1 c2 c3 : comms_class) :
  same_class c1 c2 -> same_class c2 c3 -> same_class c1 c3.
Proof.
  intros (Hn & Hm & Hh & Hv) (Hn' & Hm' & Hh' & Hv').
  repeat split; try congruence.
  destruct (command_verbs c1), (command_verbs c2), (command_verbs c3);
    try contradiction; [|exact I].
  now apply (same_entries_trans _ l0).
Qed.

(** One registration keeps every object registrable and changes no object
    beyond its verb numbers and link. *)
Lemma register_keeps_objects (r : registry) (a : addr) :
  registrable (classes r) a ->
  exists r',
    comms_register_class (Some a) r = Ret (r', []) /\
    (forall b cb, classes r !! b = Some cb ->
       exists cb', classes r' !! b = Some cb' /\ same_class cb cb') /\
    (forall b, registrable (classes r) b -> registrable (classes r') b).
Proof.
  intros Hreg.
  destruct (register_effect r a Hreg)
    as (r' & c & c' & Hrun & _ & Hc & Hc' & _ & Hsame & Hother).
  assert (Hobj : forall b cb, classes r !! b = Some cb ->
                   exists cb', classes r' !! b = Some cb' /\ same_class cb cb').
  { intros b cb Hb. destruct (decide (b = a)) as [-> | Hne].
    - exists c'. split; [assumption|]. now replace cb with c by congruence.
    - exists cb. split; [now rewrite Hother | apply same_class_refl]. }
  exists r'. split; [exact Hrun|]. split; [exact Hobj|].
  intros b Hb. pose proof Hb as (cb & _ & Hcb & _).
  destruct (Hobj b cb Hcb) as (cb' & Hcb' & Hsame').
  exact (same_entries_registrable _ _ b cb cb' Hcb Hcb' Hsame' Hb).
Qed.

Lemma register_all_keeps_objects (cs : list addr) :
  forall r : registry,
    Forall (registrable (classes r)) cs ->
    exists r',
      register_all cs r = Ret r' /\
      (forall b cb, classes r !! b = Some cb ->
         exists cb', classes r' !! b = Some cb' /\ same_class cb cb') /\
      (forall b, registrable (classes r) b -> registrable (classes r') b).
Proof.
  induction cs as [|a cs IH]; intros r Hreg.
  - exists r. repeat split; auto. intros b cb Hb. exists cb.
    split; [assumption | apply same_class_refl].
  - inversion Hreg as [|? ? Ha Hcs]; subst.
    destruct (register_keeps_objects r a Ha) as (r1 & Hrun1 & Hobj1 & Hreg1).
    destruct (IH r1) as (r' & Hrun & Hobj & Hreg').
    { eapply Forall_impl; [exact Hcs|]. exact Hreg1. }
    exists r'. split; [|split].
    + cbn [register_all]. rewrite Hrun1. exact Hrun.
    + intros b cb Hb. destruct (Hobj1 b cb Hb) as (cb1 & Hb1 & Hs1).
      destruct (Hobj b cb1 Hb1) as (cb' & Hb' & Hs').
      exists cb'. split; [assumption|]. now apply (same_class_trans cb cb1).
    + intros b Hb. apply Hreg', Hreg1, Hb.
Qed.

(** On a list of [l] nodes, [length l] units of fuel are enough: the scan
    returns a node of the list that bears the number, or [NULL] when none
    does. *)
Lemma class_scan_listed (heap : gmap addr comms_class) p (l : list addr)
    (n : Z) (fuel : nat) :
  chain heap p l -> length l <= fuel ->
  (exists a, class_scan fuel heap p n = Ret (Some a) /\ a ∈ l /\ bears heap n a) \/
  (class_scan fuel heap p n = Ret None /\ Forall (fun b => ~ bears heap n b) l).
Proof.
  intros Hchain. revert fuel.
  induction Hchain as [|a c l Hc _ IH]; intros fuel Hfuel.
  - right. split; [now destruct fuel | constructor].
  - destruct fuel as [|fuel]; [cbn in Hfuel; lia|].
    cbn [class_scan]. rewrite Hc. cbn.
    destruct (Z.eqb_spec (class_number c) n) as [Hn | Hn].
    + left. exists a. split; [reflexivity|]. split; [left | now exists c].
    + destruct (IH fuel) as [(b & Hrun & Hb & Hbears) | (Hrun & Hnone)].
      * cbn in Hfuel. lia.
      * left. exists b. split; [assumption|]. split; [now right | assumption].
      * right. split; [assumption|]. constructor; [|assumption].
        intros (c' & Hc' & Hn'). congruence.
Qed.

(** X7. The invariant of the registry: a list of objects with terminated
    verb arrays ending at [NULL].  Registering an object of that kind that
    is not on the list yet puts it in front and keeps the invariant. *)
Theorem register_keeps_list_well_formed (r : registry) (l : list addr) (a : addr) :
  listed r l ->
  a ∉ l ->
  registrable (classes r) a ->
  exists r',
    comms_register_class (Some a) r = Ret (r', []) /\
    listed r' (a :: l).
Proof.
  intros [Hchain Hall] Hfresh Hreg.
  destruct (register_effect r a Hreg)
    as (r' & c & c' & Hrun & Hhead & Hc & Hc' & Hnext & _ & Hother).
  destruct (register_keeps_objects r a Hreg) as (r'' & Hrun' & _ & Hkeep).
  assert (r'' = r') by congruence; subst r''.
  exists r'. split; [exact Hrun|]. split.
  - rewrite Hhead. econstructor; [exact Hc'|]. rewrite Hnext.
    apply (chain_agree (classes r)); [assumption|].
    intros b Hb. apply Hother. intros ->. contradiction.
  - constructor; [now apply Hkeep|].
    eapply Forall_impl; [exact Hall|]. exact Hkeep.
Qed.

(** Distinct registrable objects registered from the empty list: the list
    is well formed and every object is what it was, verb numbers and link
    apart. *)
Lemma register_all_from_boot (objects : gmap addr comms_class) (cs : list addr) :
  NoDup cs ->
  Forall (registrable objects) cs ->
  exists r,
    register_all cs (boot objects) = Ret r /\
    listed r (rev cs) /\
    (forall b n, bears (classes r) n b <-> bears objects n b) /\
    (forall b cb, objects !! b = Some cb ->
       exists cb', classes r !! b = Some cb' /\ same_class cb cb').
Proof.
  intros Hnodup Hreg.
  destruct (register_all_chain cs (boot objects) [] (chain_null _) Hnodup)
    as (r & Hrun & Hchain & Hbears); [intros a _; apply not_elem_of_nil | exact Hreg |].
  destruct (register_all_keeps_objects cs (boot objects) Hreg)
    as (r' & Hrun' & Hobj & Hkeep).
  assert (r' = r) by congruence; subst r'.
  rewrite app_nil_r in Hchain.
  exists r. split; [exact Hrun|]. split; [split; [exact Hchain|] |split; assumption].
  apply List.Forall_rev. eapply Forall_impl; [exact Hreg|]. exact Hkeep.
Qed.

(** ** Names and descriptors *)

Lemma lookup_on_list (r : registry) (l : list addr) (n : Z) (fuel : nat) :
  chain (classes r) (class_head r) l -> length l <= fuel ->
  (forall front a back,
      l = front ++ a :: back ->
      Forall (fun b => ~ bears (classes r) n b) front ->
      bears (classes r) n a ->
      comms_get_class_by_number fuel r n = Ret (Some a)) /\
  (Forall (fun b => ~ bears (classes r) n b) l ->
   comms_get_class_by_number fuel r n = Ret None).
Proof.
  intros Hchain Hfuel. unfold comms_get_class_by_number. split.
  - intros front a back -> Hfront Ha.
    apply (class_scan_found _ _ front a back); try assumption.
    rewrite length_app in Hfuel. cbn in Hfuel. lia.
  - intros Hnone. now apply (class_scan_absent _ _ l).
Qed.

(** X8. After distinct classes are registered in the order [cs] from the
    empty list, [comms_get_class_name] returns the name of the class
    registered last among those that bear the number, and
    [default_string] when that class has no name or when no class bears
    the number; it never faults. *)
Theorem class_name_after_registration (objects : gmap addr comms_class)
    (cs : list addr) (n : Z) (default_string : cstr) :
  NoDup cs ->
  Forall (registrable objects) cs ->
  exists r,
    register_all cs (boot objects) = Ret r /\
    forall fuel, length cs <= fuel ->
      (forall earlier a c later,
          cs = earlier ++ a :: later ->
          objects !! a = Some c ->
          class_number c = n ->
          Forall (fun b => ~ bears objects n b) later ->
          comms_get_class_name fuel r n default_string =
            Ret (match name c with
                 | Some s => Some s
                 | None => default_string
                 end)) /\
      (Forall (fun b => ~ bears objects n b) cs ->
       comms_get_class_name fuel r n default_string = Ret default_string).
Proof.
  intros Hnodup Hreg.
  destruct (register_all_from_boot objects cs Hnodup Hreg)
    as (r & Hrun & [Hchain _] & Hbears & Hobj).
  exists r. split; [exact Hrun|]. intros fuel Hfuel.
  assert (Hnot : forall l, Forall (fun b => ~ bears objects n b) l ->
                           Forall (fun b => ~ bears (classes r) n b) l).
  { intros l Hl. eapply Forall_impl; [exact Hl|].
    intros b Hb Hb'. apply Hb. now apply Hbears. }
  destruct (lookup_on_list r (rev cs) n fuel Hchain) as [Hfound Habsent].
  { now rewrite length_rev. }
  unfold comms_get_class_name. split.
  - intros earlier a c later -> Hc Hn Hlater.
    destruct (Hobj a c Hc) as (c' & Hc' & (_ & Hname & _)).
    rewrite (Hfound (rev later) a (rev earlier)).
    + cbn. rewrite Hc'. cbn. rewrite Hname. now destruct (name c).
    + rewrite rev_app_distr. cbn. now rewrite <- app_assoc.
    + apply Hnot. now apply List.Forall_rev.
    + apply Hbears. now exists c.
  - intros Hnone. rewrite Habsent; [reflexivity|].
    apply Hnot. now apply List.Forall_rev.
Qed.

(** The loop of [comms_get_object_for_verb] stops at the first entry that
    carries the number. *)
Lemma verb_scan_match (pre : list comms_verb) v rest h index (verb_no : Z) :
  passed_over verb_no pre ->
  handler v = Some h ->
  verb_number v = verb_no ->
  verb_scan (pre ++ v :: rest) index verb_no = Ret (Some (index + length pre, v)).
Proof.
  intros Hpre Hh Hv. revert index.
  induction Hpre as [|u pre [Hu Hne] _ IH]; intros index; cbn [app verb_scan].
  - rewrite Hh, Hv, Z.eqb_refl. cbn. now rewrite Nat.add_0_r.
  - apply has_handler_some in Hu as [hu ->].
    destruct (Z.eqb_spec (verb_number u) verb_no) as [|_]; [contradiction|].
    rewrite IH. cbn [length]. now rewrite Nat.add_succ_r.
Qed.

Lemma verb_scan_no_match (pre : list comms_verb) term post index (verb_no : Z) :
  passed_over verb_no pre ->
  handler term = None ->
  verb_scan (pre ++ term :: post) index verb_no = Ret None.
Proof.
  intros Hpre Hterm. revert index.
  induction Hpre as [|u pre [Hu Hne] _ IH]; intros index; cbn [app verb_scan].
  - now rewrite Hterm.
  - apply has_handler_some in Hu as [hu ->].
    destruct (Z.eqb_spec (verb_number u) verb_no) as [|_]; [contradiction|].
    apply IH.
Qed.

(** Whatever the loop returns, it found the first entry that carries the
    number or reached the terminator. *)
Lemma verb_scan_returns (verbs : list comms_verb) index (verb_no : Z) o :
  verb_scan verbs index verb_no = Ret o ->
  match o with
  | Some (i, v) =>
      exists pre rest h,
        verbs = pre ++ v :: rest /\ passed_over verb_no pre /\
        handler v = Some h /\ verb_number v = verb_no /\ i = index + length pre
  | None =>
      exists pre term post,
        verbs = pre ++ term :: post /\ passed_over verb_no pre /\
        handler term = None
  end.
Proof.
  revert index. induction verbs as [|u verbs IH]; intros index; cbn [verb_scan].
  - discriminate.
  - destruct (handler u) as [hu|] eqn:Hu.
    + destruct (Z.eqb_spec (verb_number u) verb_no) as [Heq | Hne].
      * intros [= <-]. exists [], verbs, hu. cbn. rewrite Nat.add_0_r.
        repeat split; auto. constructor.
      * intros Hs. apply IH in Hs.
        assert (Hpass : has_handler u = true /\ verb_number u <> verb_no).
        { split; [|assumption]. unfold has_handler. now rewrite Hu. }
        destruct o as [[i v]|].
        -- destruct Hs as (pre & rest & h & -> & Hpre & Hh & Hv & ->).
           exists (u :: pre), rest, h. cbn [length]. rewrite Nat.add_succ_r.
           repeat split; auto. now constructor.
        -- destruct Hs as (pre & term & post & -> & Hpre & Hterm).
           exists (u :: pre), term, post. repeat split; auto. now constructor.
    + intros [= <-]. exists [], u, verbs. repeat split; auto. constructor.
Qed.

(** X9. For a class that the lookup finds, [comms_get_handler_name] never
    faults: it returns the name of the first verb that carries the number,
    or [default_string] when that verb has no name; with no such verb, or
    with no verb array at all, it returns [class_handler_string] when the
    class has a handler and [default_string] otherwise. *)
Theorem handler_name_of_known_class (fuel : nat) (r : registry)
    (class_no verb_no : Z) (class_handler_string default_string : cstr)
    (a : addr) (c : comms_class) :
  comms_get_class_by_number fuel r class_no = Ret (Some a) ->
  classes r !! a = Some c ->
  (forall pre v rest h,
      command_verbs c = Some (pre ++ v :: rest) ->
      passed_over verb_no pre ->
      handler v = Some h ->
      verb_number v = verb_no ->
      comms_get_handler_name fuel r class_no verb_no
        class_handler_string default_string =
        Ret (match verb_name v with
             | Some s => Some s
             | None => default_string
             end)) /\
  ((command_verbs c = None \/
    exists pre term post,
      command_verbs c = Some (pre ++ term :: post) /\
      passed_over verb_no pre /\ handler term = None) ->
   comms_get_handler_name fuel r class_no verb_no
     class_handler_string default_string =
     Ret (if is_null (command_handler c) then default_string
          else class_handler_string)).
Proof.
  intros Hfind Hc. unfold comms_get_handler_name, comms_get_object_for_verb.
  rewrite Hfind. cbn. rewrite Hc. cbn. split.
  - intros pre v rest h Hverbs Hpre Hh Hv. rewrite Hverbs.
    rewrite (verb_scan_match pre v rest h 0 verb_no Hpre Hh Hv). cbn.
    now destruct (verb_name v).
  - intros [Hverbs | (pre & term & post & Hverbs & Hpre & Hterm)]; rewrite Hverbs.
    + cbn. rewrite ?Hc. now destruct (command_handler c).
    + rewrite (verb_scan_no_match pre term post 0 verb_no Hpre Hterm). cbn.
      rewrite ?Hc. now destruct (command_handler c).
Qed.

(** On an array with a terminator the loop returns. *)
Lemma verb_scan_terminated (verbs : list comms_verb) index (verb_no : Z) :
  terminated verbs -> exists o, verb_scan verbs index verb_no = Ret o.
Proof.
  unfold terminated. intros Hterm. revert index.
  induction Hterm as [u verbs Hu | u verbs _ IH]; intros index; cbn [verb_scan].
  - rewrite Hu. eauto.
  - destruct (handler u); [|eauto].
    destruct (verb_number u =? verb_no)%Z; [eauto | apply IH].
Qed.

Lemma handler_name_returns (fuel : nat) (r : registry) (class_no verb_no : Z)
    (class_handler_string default_string : cstr) a c verbs :
  comms_get_class_by_number fuel r class_no = Ret (Some a) ->
  classes r !! a = Some c ->
  command_verbs c = Some verbs ->
  terminated verbs ->
  exists label,
    comms_get_handler_name fuel r class_no verb_no
      class_handler_string default_string = Ret label.
Proof.
  intros Hfind Hc Hverbs Hterm.
  destruct (verb_scan_terminated verbs 0 verb_no Hterm) as (o & Hscan).
  unfold comms_get_handler_name, comms_get_object_for_verb.
  rewrite Hfind. cbn. rewrite Hc. cbn. rewrite Hverbs, Hscan. cbn.
  destruct o as [[i v]|].
  - destruct (verb_name v); eauto.
  - rewrite ?Hc. cbn. destruct (is_null (command_handler c)); eauto.
Qed.

(** X10. On a well-formed list, and with one unit of fuel for each of its
    nodes, [comms_get_handler_name] faults exactly when no class on the
    list bears the class number. *)
Theorem handler_name_faults_iff_unknown (fuel : nat) (r : registry)
    (l : list addr) (class_no verb_no : Z)
    (class_handler_string default_string : cstr) :
  listed r l ->
  length l <= fuel ->
  comms_get_handler_name fuel r class_no verb_no
    class_handler_string default_string = Fault <->
  Forall (fun b => ~ bears (classes r) class_no b) l.
Proof.
  intros [Hchain Hall] Hfuel.
  destruct (class_scan_listed (classes r) (class_head r) l class_no fuel Hchain Hfuel)
    as [(a & Hrun & Ha & Hbears) | (Hrun & Hnone)].
  - rewrite Forall_forall in Hall.
    destruct (Hall a Ha) as (c & verbs & Hc & Hverbs & Hterm & _).
    destruct (handler_name_returns fuel r class_no verb_no class_handler_string
                default_string a c verbs Hrun Hc Hverbs Hterm) as (label & ->).
    split; [discriminate|].
    intros Hnone. rewrite Forall_forall in Hnone. now destruct (Hnone a Ha).
  - split; [intros _; exact Hnone|]. intros _.
    unfold comms_get_handler_name, comms_get_object_for_verb.
    fold (comms_get_class_by_number fuel r class_no) in Hrun. now rewrite Hrun.
Qed.

(** ** The dispatcher, whatever it is given *)

Lemma selects_is_call (c : comms_class) (verb_no : Z) ev h :
  selects c verb_no ev h -> is_call ev = true.
Proof. now destruct 1. Qed.

Section DispatchOutcomes.

Context {trans_area : Type}.
Variable comms_transaction_okay : command_transaction trans_area -> bool.
Variables EINVAL EBADMSG : Z.
Variable handler_code :
  fnptr -> command_transaction trans_area -> registry ->
  Z * command_transaction trans_area * registry.

Abbreviation scan := (submit_scan trans_area handler_code).
Abbreviation submit :=
  (comms_backend_submit_command trans_area comms_transaction_okay
     EINVAL EBADMSG handler_code).
Abbreviation status_of := (checked_status trans_area comms_transaction_okay EBADMSG).

Implicit Types (trans : command_transaction trans_area) (r : registry).

(** On an array with a terminator the loop of the dispatcher returns. *)
Lemma submit_scan_terminated (verbs : list comms_verb) index trans r :
  terminated verbs -> exists s, scan verbs index trans r = Ret s.
Proof.
  unfold terminated. intros Hterm. revert index.
  induction Hterm as [u verbs Hu | u verbs _ IH]; intros index; cbn [submit_scan].
  - rewrite Hu. eauto.
  - destruct (handler u); [|eauto].
    destruct (verb_number u =? trans_verb trans)%Z; [|apply IH].
    destruct (handler_code f trans r) as [[code trans'] r']. eauto.
Qed.

(** Every return of the dispatcher is one of two: the one call of the
    handler the class selects, with its checked status; or [EINVAL] with no
    call and nothing changed. *)
Lemma submit_outcomes fuel backend trans r status trans' r' log :
  submit fuel backend trans r = Ret (status, trans', r', log) ->
  (exists a c ev h code,
      comms_get_class_by_number fuel r (trans_class_number trans) = Ret (Some a) /\
      classes r !! a = Some c /\
      selects c (trans_verb trans) ev h /\
      handler_code h trans r = (code, trans', r') /\
      status = status_of code trans' /\
      log = [ev]) \/
  (status = EINVAL /\ trans' = trans /\ r' = r /\
   Forall (fun ev => is_call ev = false) log).
Proof.
  intros Hrun. pose proof Hrun as Hrun0. revert Hrun.
  unfold comms_backend_submit_command.
  destruct (comms_get_class_by_number fuel r (trans_class_number trans))
    as [[a|]| |] eqn:Hfind; cbn; try discriminate.
  2:{ intros [= <- <- <- <-]. right. repeat split. now repeat constructor. }
  destruct (classes r !! a) as [c|] eqn:Hc; cbn; [|discriminate].
  destruct (command_verbs c) as [verbs|] eqn:Hverbs; cbn.
  2:{ destruct (command_handler c); cbn; [discriminate|].
      intros [= <- <- <- <-]. right. repeat split. now repeat constructor. }
  destruct (scan verbs 0 trans r) as [s| |] eqn:Hscan; cbn; try discriminate.
  intros _.
  destruct (submit_scan_returns handler_code verbs 0 trans r s Hscan)
    as [(pre & v & rest & h & -> & Hpre & Hh & Hv & _)
       | (pre & term & post & -> & Hpre & Hterm & ->)].
  - destruct (handler_code h trans r) as [[code t1] r1] eqn:Hcode.
    assert (Hsel : selects c (trans_verb trans) (EvVerbHandler (length pre) h) h).
    { now apply (selects_verb c _ pre v rest h). }
    pose proof (submit_selected comms_transaction_okay EINVAL EBADMSG handler_code
                  fuel backend trans r a c _ h code t1 r1 Hfind Hc Hsel Hcode) as Hrun.
    rewrite Hrun in Hrun0. injection Hrun0 as <- <- <- <-.
    left. exists a, c, (EvVerbHandler (length pre) h), h, code. auto 10.
  - destruct (command_handler c) as [ch|] eqn:Hch.
    + destruct (handler_code ch trans r) as [[code t1] r1] eqn:Hcode.
      assert (Hsel : selects c (trans_verb trans) (EvClassHandler ch) ch).
      { now apply (selects_class c _ pre term post ch). }
      pose proof (submit_selected comms_transaction_okay EINVAL EBADMSG handler_code
                    fuel backend trans r a c _ ch code t1 r1 Hfind Hc Hsel Hcode) as Hrun.
      rewrite Hrun in Hrun0. injection Hrun0 as <- <- <- <-.
      left. exists a, c, (EvClassHandler ch), ch, code. auto 10.
    + revert Hrun0. unfold comms_backend_submit_command.
      rewrite Hfind; cbn. rewrite Hc; cbn. rewrite Hverbs, Hch; cbn.
      rewrite (submit_scan_no_match handler_code pre term post 0 trans r Hpre Hterm). cbn.
      intros [= <- <- <- <-]. right. repeat split. now repeat constructor.
Qed.

(** X11. The dispatcher calls at most one handler for a transaction. *)
Theorem submit_calls_at_most_one_handler fuel backend trans r
    status trans' r' log :
  submit fuel backend trans r = Ret (status, trans', r', log) ->
  length (List.filter is_call log) <= 1.
Proof.
  intros Hrun.
  destruct (submit_outcomes _ _ _ _ _ _ _ _ Hrun)
    as [(a & c & ev & h & code & _ & _ & Hsel & _ & _ & ->) | (_ & _ & _ & Hnone)].
  - cbn. rewrite (selects_is_call _ _ _ _ Hsel). cbn. lia.
  - clear Hrun. induction Hnone as [|ev log Hev _ IH]; cbn; [lia|].
    now rewrite Hev.
Qed.

(** X12. When the dispatcher returns without having called a handler, it
    returns [EINVAL] and has changed neither the transaction nor the
    registry. *)
Theorem submit_without_call_is_invalid fuel backend trans r
    status trans' r' log :
  submit fuel backend trans r = Ret (status, trans', r', log) ->
  Forall (fun ev => is_call ev = false) log ->
  status = EINVAL /\ trans' = trans /\ r' = r.
Proof.
  intros Hrun Hnone.
  destruct (submit_outcomes _ _ _ _ _ _ _ _ Hrun)
    as [(a & c & ev & h & code & _ & _ & Hsel & _ & _ & ->) | (Hs & Ht & Hr & _)].
  - apply selects_is_call in Hsel. inversion Hnone; subst. congruence.
  - auto.
Qed.

(** X13. With [EINVAL] and [EBADMSG] different from 0, as in [errno.h], the
    dispatcher returns 0 only if it made exactly one call, the handler it
    called (the one the event of the call names) returned 0 on the
    transaction submitted, and [comms_transaction_okay] holds of the
    transaction that handler left. *)
Theorem submit_zero_means_handled_and_okay fuel backend trans r
    trans' r' log :
  EINVAL <> 0%Z ->
  EBADMSG <> 0%Z ->
  submit fuel backend trans r = Ret (0%Z, trans', r', log) ->
  comms_transaction_okay trans' = true /\
  exists h,
    ((exists index, log = [EvVerbHandler index h]) \/ log = [EvClassHandler h]) /\
    handler_code h trans r = (0%Z, trans', r').
Proof.
  intros Hinval Hbadmsg Hrun.
  destruct (submit_outcomes _ _ _ _ _ _ _ _ Hrun)
    as [(a & c & ev & h & code & _ & _ & Hsel & Hcode & Hstatus & ->) | (Hs & _)];
    [|congruence].
  unfold checked_status in Hstatus.
  destruct (Z.eqb_spec code 0) as [-> | Hne]; cbn in Hstatus; [|congruence].
  destruct (comms_transaction_okay trans') eqn:Hok; cbn in Hstatus; [|congruence].
  split; [reflexivity|]. exists h. split; [|assumption].
  destruct Hsel; [left; eauto | right; reflexivity].
Qed.

(** X14. On a well-formed list, and with one unit of fuel for each of its
    nodes, the dispatcher returns for every transaction: it reads neither
    through [NULL] nor past the end of a verb array. *)
Theorem submit_returns_on_well_formed_list fuel backend trans r (l : list addr) :
  listed r l ->
  length l <= fuel ->
  exists status trans' r' log,
    submit fuel backend trans r = Ret (status, trans', r', log).
Proof.
  intros [Hchain Hall] Hfuel. unfold comms_backend_submit_command.
  unfold comms_get_class_by_number.
  destruct (class_scan_listed (classes r) (class_head r) l
              (trans_class_number trans) fuel Hchain Hfuel)
    as [(a & Hrun & Ha & _) | (Hrun & _)]; rewrite Hrun; cbn; [|eauto 6].
  rewrite Forall_forall in Hall.
  destruct (Hall a Ha) as (c & verbs & Hc & Hverbs & Hterm & _).
  rewrite Hc. cbn. rewrite Hverbs. cbn.
  destruct (submit_scan_terminated verbs 0 trans r Hterm) as (s & ->). cbn.
  destruct (negb (found_handler (delegate trans_area handler_code (command_handler c) s)));
    eauto 6.
Qed.

(** X15. After distinct classes are registered from the empty list, a
    transaction for a class number that none of them bears is refused with
    [EINVAL]: one warning is logged, no handler is called, and the
    transaction and the registry are as they were. *)
Theorem submit_for_unknown_class_is_invalid (objects : gmap addr comms_class)
    (cs : list addr) backend trans :
  NoDup cs ->
  Forall (registrable objects) cs ->
  Forall (fun b => ~ bears objects (trans_class_number trans) b) cs ->
  exists r,
    register_all cs (boot objects) = Ret r /\
    forall fuel, length cs <= fuel ->
      submit fuel backend trans r =
        Ret (EINVAL, trans, r,
             [EvUnknownClass (backend_name backend) (trans_class_number trans)]).
Proof.
  intros Hnodup Hreg Hnone.
  destruct (register_all_from_boot objects cs Hnodup Hreg)
    as (r & Hrun & [Hchain _] & Hbears & _).
  exists r. split; [exact Hrun|]. intros fuel Hfuel.
  destruct (lookup_on_list r (rev cs) (trans_class_number trans) fuel Hchain)
    as [_ Habsent]; [now rewrite length_rev|].
  unfold comms_backend_submit_command. rewrite Habsent; [reflexivity|].
  apply List.Forall_rev. eapply Forall_impl; [exact Hnone|].
  intros b Hb Hb'. apply Hb. now apply Hbears.
Qed.

(** X16. The descriptor that [comms_get_object_for_verb] returns for the
    class and verb of a transaction is the entry whose handler the
    dispatcher calls for it, and that call is the only one. *)
Theorem object_for_verb_is_dispatched fuel backend trans r (i : nat)
    (v : comms_verb) :
  comms_get_object_for_verb fuel r (trans_class_number trans) (trans_verb trans)
    = Ret (Some (i, v)) ->
  exists h,
    handler v = Some h /\
    verb_number v = trans_verb trans /\
    forall code trans' r',
      handler_code h trans r = (code, trans', r') ->
      submit fuel backend trans r =
        Ret (status_of code trans', trans', r', [EvVerbHandler i h]).
Proof.
  unfold comms_get_object_for_verb.
  destruct (comms_get_class_by_number fuel r (trans_class_number trans))
    as [[a|]| |] eqn:Hfind; cbn; try discriminate.
  destruct (classes r !! a) as [c|] eqn:Hc; cbn; [|discriminate].
  destruct (command_verbs c) as [verbs|] eqn:Hverbs; [|discriminate].
  intros Hscan. apply verb_scan_returns in Hscan.
  destruct Hscan as (pre & rest & h & -> & Hpre & Hh & Hv & ->).
  exists h. split; [assumption|]. split; [assumption|].
  intros code trans' r' Hcode.
  apply (submit_selected comms_transaction_okay EINVAL EBADMSG handler_code
           fuel backend trans r a c _ h code trans' r' Hfind Hc); [|assumption].
  now apply (selects_verb c _ pre v rest h).
Qed.

(** X17. When [comms_get_object_for_verb] finds no descriptor for the class
    and verb of a transaction, the dispatcher calls no verb handler for
    it. *)
Theorem no_descriptor_no_verb_call fuel backend trans r
    status trans' r' log (i : nat) (h : fnptr) :
  comms_get_object_for_verb fuel r (trans_class_number trans) (trans_verb trans)
    = Ret None ->
  submit fuel backend trans r = Ret (status, trans', r', log) ->
  ~ In (EvVerbHandler i h) log.
Proof.
  intros Hnone Hrun Hin.
  destruct (submit_outcomes _ _ _ _ _ _ _ _ Hrun)
    as [(a & c & ev & h' & code & Hfind & Hc & Hsel & _ & _ & ->)
       | (_ & _ & _ & Hall)].
  - destruct Hin as [-> | []].
    inversion Hsel as [pre v rest h0 Hverbs Hpre Hh Hv | ]; subst.
    revert Hnone. unfold comms_get_object_for_verb.
    rewrite Hfind. cbn. rewrite Hc. cbn. rewrite Hverbs.
    now rewrite (verb_scan_match pre v rest _ 0 (trans_verb trans) Hpre Hh Hv).
  - rewrite Forall_forall in Hall. apply list_elem_of_In in Hin.
    now specialize (Hall _ Hin).
Qed.

(** In an array numbered upwards from [n], the entry at position [i]
    carries [n + i] and no entry in front of it does. *)
Lemma numbered_split (pre : list comms_verb) (n : Z) (i : nat) :
  Forall (fun v => has_handler v = true) pre ->
  map verb_number pre = map (fun j => (n + Z.of_nat j)%Z) (seq 0 (length pre)) ->
  i < length pre ->
  exists p1 v p2,
    pre = p1 ++ v :: p2 /\ length p1 = i /\
    passed_over (n + Z.of_nat i) p1 /\ verb_number v = (n + Z.of_nat i)%Z.
Proof.
  intros Hpre. revert n i.
  induction Hpre as [|u pre Hu _ IH]; intros n i Hnum Hi; cbn in Hi; [lia|].
  cbn [length seq map] in Hnum. injection Hnum as Hu0 Hrest.
  destruct i as [|i].
  - exists [], u, pre. repeat split; [constructor | lia].
  - destruct (IH (n + 1)%Z i) as (p1 & v & p2 & -> & Hlen & Hpass & Hv); [|lia|].
    + rewrite Hrest, <- seq_shift, map_map. apply map_ext. intros j. lia.
    + exists (u :: p1), v, p2. repeat split.
      * cbn. now rewrite Hlen.
      * constructor; [split; [assumption | lia]|].
        replace (n + Z.of_nat (S i))%Z with (n + 1 + Z.of_nat i)%Z by lia.
        exact Hpass.
      * lia.
Qed.

(** X18. A class whose verbs all declare 0 is addressed by position once
    it is registered: a transaction that carries its class number and the
    verb number [i] calls the handler of the entry at position [i] of its
    verb array, and only that one. *)
Theorem auto_numbered_verb_is_called_by_position backend trans r (a : addr)
    (c : comms_class) (q1 : list comms_verb) (w : comms_verb)
    (q2 : list comms_verb) (term : comms_verb) (post : list comms_verb)
    (h : fnptr) :
  classes r !! a = Some c ->
  command_verbs c = Some ((q1 ++ w :: q2) ++ term :: post) ->
  Forall (fun v => has_handler v = true /\ verb_number v = 0%Z) (q1 ++ w :: q2) ->
  handler term = None ->
  (Z.of_nat (length (q1 ++ w :: q2)) <= INT_MAX)%Z ->
  handler w = Some h ->
  trans_class_number trans = class_number c ->
  trans_verb trans = Z.of_nat (length q1) ->
  exists r',
    comms_register_class (Some a) r = Ret (r', []) /\
    forall fuel code trans' r'',
      handler_code h trans r' = (code, trans', r'') ->
      submit (S fuel) backend trans r' =
        Ret (status_of code trans', trans', r'', [EvVerbHandler (length q1) h]).
Proof.
  intros Hc Hverbs Hzero Hterm Hlen Hh Hclass Hverb.
  set (pre := q1 ++ w :: q2) in *.
  assert (Hlive : Forall (fun v => has_handler v = true) pre).
  { eapply Forall_impl; [exact Hzero|]. now intros v [Hv _]. }
  destruct (assign_scan_numbers pre term post 0 Hlive Hterm)
    as (pre' & Hscan & Hnum & Hhdl & _); [lia | lia |].
  pose proof (requires_scan_all_zero pre term post Hzero Hterm) as Hreq.
  pose proof (register_shape r a c _ _ true Hc Hverbs Hreq Hscan) as Hrun.
  set (c' := set_next (set_command_verbs c (pre' ++ term :: post)) (class_head r)) in *.
  set (r' := {| classes := <[a := c']> (classes r); class_head := Some a |}) in *.
  exists r'. split; [exact Hrun|]. intros fuel code trans' r'' Hcode.
  assert (Hlen' : length pre' = length pre).
  { now rewrite <- (length_map handler pre'), Hhdl, length_map. }
  destruct (numbered_split pre' 0 (length q1)) as (p1 & v & p2 & Hsplit & Hp1 & Hpass & Hv).
  { exact (same_handlers_live pre pre' Hhdl Hlive). }
  { now rewrite Hlen'. }
  { rewrite Hlen'. unfold pre. rewrite length_app. cbn. lia. }
  assert (Hhv : handler v = Some h).
  { rewrite Hsplit in Hhdl. unfold pre in Hhdl. rewrite !map_app in Hhdl. cbn in Hhdl.
    apply app_inj_1 in Hhdl as [_ Htail]; [|now rewrite !length_map].
    injection Htail as Hhead _. congruence. }
  apply (submit_selected comms_transaction_okay EINVAL EBADMSG handler_code
           (S fuel) backend trans r' a c' (EvVerbHandler (length q1) h) h
           code trans' r''); [| | |exact Hcode].
  - unfold comms_get_class_by_number, r'. cbn [class_head classes class_scan].
    rewrite lookup_insert_eq. cbn. now rewrite Hclass, Z.eqb_refl.
  - apply lookup_insert_eq.
  - rewrite Z.add_0_l in Hpass, Hv. rewrite <- Hp1 in Hverb, Hpass, Hv |- *.
    apply (selects_verb c' _ p1 v (p2 ++ term :: post) h).
    + cbn. rewrite Hsplit, <- app_assoc. reflexivity.
    + rewrite Hverb. exact Hpass.
    + exact Hhv.
    + congruence.
Qed.

End DispatchOutcomes.

(** ** The further properties on the device *)

Ltac terminated_here :=
  unfold terminated;
  repeat first [apply Exists_cons_hd; reflexivity | apply Exists_cons_tl].

Ltac registrable_here :=
  eexists _, _; split; [run|]; split; [reflexivity|];
  split; [terminated_here | vm_compute; discriminate].

Ltac chain_here :=
  repeat first [apply chain_null | eapply chain_node; [run | cbn]].

Ltac not_among :=
  rewrite ?not_elem_of_cons; repeat split; try discriminate;
  try apply not_elem_of_nil.

Lemma device_objects_registrable :
  Forall (registrable Device.objects) [1; 2; 3]%positive.
Proof. repeat constructor; registrable_here. Qed.

Lemma device_early_listed : listed Device.early [2; 1]%positive.
Proof.
  split.
  - replace (class_head Device.early) with (Some 2%positive) by run. chain_here.
  - repeat constructor; registrable_here.
Qed.

Lemma device_registered_listed : listed Device.registered [3; 2; 1]%positive.
Proof.
  split.
  - replace (class_head Device.registered) with (Some 3%positive) by run. chain_here.
  - repeat constructor; registrable_here.
Qed.

Lemma device_distinct : NoDup [1; 2; 3]%positive.
Proof. repeat constructor; not_among. Qed.

Lemma register_touches_numbers_and_link_only_witness :
  exists r' c c',
    comms_register_class (Some 1%positive) (boot Device.objects) = Ret (r', []) /\
    class_head r' = Some 1%positive /\
    classes (boot Device.objects) !! 1%positive = Some c /\
    classes r' !! 1%positive = Some c' /\
    next c' = None /\
    same_class c c' /\
    forall b, b <> 1%positive -> classes r' !! b = Device.objects !! b.
Proof.
  apply (register_touches_numbers_and_link_only (boot Device.objects) 1%positive).
  registrable_here.
Defined.

Lemma register_again_keeps_numbers_witness :
  exists r1 r2 c1 c2,
    comms_register_class (Some 1%positive) (boot Device.objects) = Ret (r1, []) /\
    comms_register_class (Some 1%positive) r1 = Ret (r2, []) /\
    classes r1 !! 1%positive = Some c1 /\
    classes r2 !! 1%positive = Some c2 /\
    command_verbs c2 = command_verbs c1.
Proof.
  apply (register_again_keeps_numbers (boot Device.objects) 1%positive).
  registrable_here.
Defined.

Lemma lookup_result_bears_number_witness :
  bears (classes Device.registered) 7 3%positive.
Proof.
  apply (lookup_result_bears_number 3 Device.registered 7 3%positive). run.
Defined.

Lemma register_then_lookup_witness :
  exists r',
    comms_register_class (Some 3%positive) Device.early = Ret (r', []) /\
    forall fuel, comms_get_class_by_number (S fuel) r' 7 = Ret (Some 3%positive).
Proof.
  apply (register_then_lookup Device.early 3%positive Device.spi2).
  - registrable_here.
  - run.
Defined.

Lemma register_keeps_other_lookups_witness :
  exists r',
    comms_register_class (Some 3%positive) Device.early = Ret (r', []) /\
    forall fuel,
      comms_get_class_by_number (S fuel) r' 5 =
      comms_get_class_by_number fuel Device.early 5.
Proof.
  apply (register_keeps_other_lookups Device.early [2; 1]%positive 3%positive
           Device.spi2 5).
  - apply device_early_listed.
  - not_among.
  - registrable_here.
  - run.
  - discriminate.
Defined.

Lemma register_listed_object_makes_ring_witness :
  exists r',
    comms_register_class (Some 2%positive) Device.registered = Ret (r', []) /\
    forall fuel, comms_get_class_by_number fuel r' 5 = OutOfFuel.
Proof.
  apply (register_listed_object_makes_ring Device.registered
           [3%positive] 2%positive [1%positive] 5).
  - apply device_registered_listed.
  - not_among.
  - registrable_here.
  - intros b Hb (c & Hc & Hn).
    apply elem_of_cons in Hb as [-> | Hb];
      [|apply elem_of_cons in Hb as [-> | Hb]; [|now apply elem_of_nil in Hb]];
      vm_compute in Hc; injection Hc as <-; discriminate Hn.
Defined.

Lemma register_keeps_list_well_formed_witness :
  exists r',
    comms_register_class (Some 3%positive) Device.early = Ret (r', []) /\
    listed r' [3; 2; 1]%positive.
Proof.
  apply (register_keeps_list_well_formed Device.early [2; 1]%positive 3%positive).
  - apply device_early_listed.
  - not_among.
  - registrable_here.
Defined.

Lemma class_name_after_registration_witness :
  exists r,
    register_all [1; 2; 3]%positive (boot Device.objects) = Ret r /\
    comms_get_class_name 3 r 5 (Some "unknown"%string) = Ret (Some "gpio"%string) /\
    comms_get_class_name 3 r 99 (Some "unknown"%string) = Ret (Some "unknown"%string).
Proof.
  assert (Hno : forall a c n, Device.objects !! a = Some c ->
                              class_number c <> n -> ~ bears Device.objects n a).
  { intros a c n Hc Hne (c' & Hc' & Hn). congruence. }
  destruct (class_name_after_registration Device.objects [1; 2; 3]%positive 5
              (Some "unknown"%string) device_distinct device_objects_registrable)
    as (r & Hrun & Hfive).
  destruct (class_name_after_registration Device.objects [1; 2; 3]%positive 99
              (Some "unknown"%string) device_distinct device_objects_registrable)
    as (r99 & Hrun99 & Hnone).
  assert (r99 = r) by congruence; subst r99.
  exists r. split; [exact Hrun|]. split.
  - apply (proj1 (Hfive 3 (le_n 3)) [] 1%positive Device.gpio [2; 3]%positive).
    + reflexivity.
    + reflexivity.
    + reflexivity.
    + repeat constructor; eapply Hno; try reflexivity; discriminate.
  - apply (proj2 (Hnone 3 (le_n 3))).
    repeat constructor; eapply Hno; try reflexivity; discriminate.
Defined.

Lemma handler_name_of_known_class_witness :
  comms_get_handler_name 2 Device.early 7 3
    (Some "class handler"%string) (Some "unknown"%string) = Ret (Some "X"%string) /\
  comms_get_handler_name 2 Device.early 7 9
    (Some "class handler"%string) (Some "unknown"%string) =
    Ret (Some "class handler"%string).
Proof.
  pose (c := set_next Device.spi (Some 1%positive)).
  assert (Hfind : comms_get_class_by_number 2 Device.early 7 = Ret (Some 2%positive))
    by run.
  assert (Hc : classes Device.early !! 2%positive = Some c) by run.
  split.
  - apply (proj1 (handler_name_of_known_class 2 Device.early 7 3
                    (Some "class handler"%string) (Some "unknown"%string)
                    2%positive c Hfind Hc)
             [] (Device.entry 3 (Some "X"%string) (Some 20%positive))
             [Device.terminator] 20%positive); try reflexivity. constructor.
  - apply (proj2 (handler_name_of_known_class 2 Device.early 7 9
                    (Some "class handler"%string) (Some "unknown"%string)
                    2%positive c Hfind Hc)).
    right. exists [Device.entry 3 (Some "X"%string) (Some 20%positive)],
             Device.terminator, [].
    split; [reflexivity|]. split; [|reflexivity]. repeat constructor. discriminate.
Defined.

Lemma handler_name_faults_iff_unknown_witness :
  comms_get_handler_name 3 Device.registered 99 0
    (Some "class handler"%string) (Some "unknown"%string) = Fault <->
  Forall (fun b => ~ bears (classes Device.registered) 99 b) [3; 2; 1]%positive.
Proof.
  apply (handler_name_faults_iff_unknown 3 Device.registered [3; 2; 1]%positive).
  - apply device_registered_listed.
  - apply le_n.
Defined.

Lemma submit_calls_at_most_one_handler_witness :
  Device.submit 3 Device.usb (Device.transaction 7 0) Device.registered =
    Ret (Device.EBADMSG, Device.respond (-1) (Device.transaction 7 0),
         Device.registered, [EvVerbHandler 0 31%positive]) /\
  length (List.filter is_call [EvVerbHandler 0 31%positive]) <= 1.
Proof.
  split; [run|].
  apply (submit_calls_at_most_one_handler Device.transaction_okay
           Device.EINVAL Device.EBADMSG Device.code
           3 Device.usb (Device.transaction 7 0) Device.registered
           Device.EBADMSG (Device.respond (-1) (Device.transaction 7 0))
           Device.registered).
  run.
Defined.

Lemma submit_without_call_is_invalid_witness :
  Device.submit 3 Device.usb (Device.transaction 5 7) Device.registered =
    Ret (22%Z, Device.transaction 5 7, Device.registered,
         [EvUnhandledVerb (Some "usb"%string) (Some "gpio"%string) 7]) /\
  (22%Z = Device.EINVAL /\
   Device.transaction 5 7 = Device.transaction 5 7 /\
   Device.registered = Device.registered).
Proof.
  split; [run|].
  apply (submit_without_call_is_invalid Device.transaction_okay
           Device.EINVAL Device.EBADMSG Device.code
           3 Device.usb (Device.transaction 5 7) Device.registered
           Device.EINVAL (Device.transaction 5 7) Device.registered
           [EvUnhandledVerb (Some "usb"%string) (Some "gpio"%string) 7]).
  - run.
  - now repeat constructor.
Defined.

Lemma submit_zero_means_handled_and_okay_witness :
  Device.transaction_okay (Device.respond 11 (Device.transaction 5 1)) = true /\
  exists h,
    ((exists index, [EvVerbHandler 1 11%positive] = [EvVerbHandler index h]) \/
     [EvVerbHandler 1 11%positive] = [EvClassHandler h]) /\
    Device.code h (Device.transaction 5 1) Device.registered =
      (0%Z, Device.respond 11 (Device.transaction 5 1), Device.registered).
Proof.
  apply (submit_zero_means_handled_and_okay Device.transaction_okay
           Device.EINVAL Device.EBADMSG Device.code
           3 Device.usb (Device.transaction 5 1) Device.registered).
  - discriminate.
  - discriminate.
  - run.
Defined.

Lemma submit_returns_on_well_formed_list_witness :
  exists status trans' r' log,
    Device.submit 3 Device.usb (Device.transaction 7 4) Device.registered =
      Ret (status, trans', r', log).
Proof.
  apply (submit_returns_on_well_formed_list Device.transaction_okay
           Device.EINVAL Device.EBADMSG Device.code
           3 Device.usb (Device.transaction 7 4) Device.registered
           [3; 2; 1]%positive).
  - apply device_registered_listed.
  - apply le_n.
Defined.

Lemma submit_for_unknown_class_is_invalid_witness :
  exists r,
    register_all [1; 2; 3]%positive (boot Device.objects) = Ret r /\
    forall fuel, 3 <= fuel ->
      Device.submit fuel Device.usb (Device.transaction 99 0) r =
        Ret (Device.EINVAL, Device.transaction 99 0, r,
             [EvUnknownClass (Some "usb"%string) 99]).
Proof.
  apply (submit_for_unknown_class_is_invalid Device.transaction_okay
           Device.EINVAL Device.EBADMSG Device.code
           Device.objects [1; 2; 3]%positive Device.usb (Device.transaction 99 0)).
  - apply device_distinct.
  - apply device_objects_registrable.
  - repeat constructor; intros (c & Hc & Hn);
      vm_compute in Hc; injection Hc as <-; discriminate Hn.
Defined.

Lemma object_for_verb_is_dispatched_witness :
  exists h,
    Some 11%positive = Some h /\
    1%Z = 1%Z /\
    forall code trans' r',
      Device.code h (Device.transaction 5 1) Device.registered = (code, trans', r') ->
      Device.submit 3 Device.usb (Device.transaction 5 1) Device.registered =
        Ret (checked_status Device.area Device.transaction_okay Device.EBADMSG
               code trans',
             trans', r', [EvVerbHandler 1 h]).
Proof.
  apply (object_for_verb_is_dispatched Device.transaction_okay
           Device.EINVAL Device.EBADMSG Device.code
           3 Device.usb (Device.transaction 5 1) Device.registered
           1 (Device.entry 1 (Some "B"%string) (Some 11%positive))).
  run.
Defined.

Lemma no_descriptor_no_verb_call_witness :
  comms_get_object_for_verb 2 Device.early 7 9 = Ret None /\
  Device.submit 2 Device.usb (Device.transaction 7 9) Device.early =
    Ret (0%Z, Device.respond 21 (Device.transaction 7 9), Device.early,
         [EvClassHandler 21%positive]) /\
  ~ In (EvVerbHandler 0 20%positive) [EvClassHandler 21%positive].
Proof.
  split; [run|]. split; [run|].
  apply (no_descriptor_no_verb_call Device.transaction_okay
           Device.EINVAL Device.EBADMSG Device.code
           2 Device.usb (Device.transaction 7 9) Device.early
           0%Z (Device.respond 21 (Device.transaction 7 9)) Device.early).
  - run.
  - run.
Defined.

Lemma auto_numbered_verb_is_called_by_position_witness :
  exists r',
    comms_register_class (Some 1%positive) (boot Device.objects) = Ret (r', []) /\
    forall fuel code trans' r'',
      Device.code 11%positive (Device.transaction 5 1) r' = (code, trans', r'') ->
      Device.submit (S fuel) Device.usb (Device.transaction 5 1) r' =
        Ret (checked_status Device.area Device.transaction_okay Device.EBADMSG
               code trans',
             trans', r'', [EvVerbHandler 1 11%positive]).
Proof.
  apply (auto_numbered_verb_is_called_by_position Device.transaction_okay
           Device.EINVAL Device.EBADMSG Device.code
           Device.usb (Device.transaction 5 1) (boot Device.objects)
           1%positive Device.gpio
           [Device.entry 0 (Some "A"%string) (Some 10%positive)]
           (Device.entry 0 (Some "B"%string) (Some 11%positive))
           [Device.entry 0 None (Some 12%positive)]
           Device.terminator []).
  - run.
  - reflexivity.
  - repeat constructor.
  - reflexivity.
  - vm_compute. discriminate.
  - reflexivity.
  - reflexivity.
  - reflexivity.
Defined.
